(** * Verification of the structured-chat pipeline of ollama-middleware.js

    Shallow embedding of [src/ollama-middleware.js]: JavaScript values,
    property access with the inherited members of the built-in prototypes,
    the two regular expressions, [JSON.stringify], [validateAgainstSchema],
    [createMinimalValidObject], [extractJsonFromText], [generateJsonFromText]
    and the routes [POST /api/structured-chat] and [POST /api/chat].

    JavaScript strings are modelled as byte strings ([string]); numbers as
    integers ([Z]).  The completion service (axios POST to [/api/chat]) and
    [JSON.parse] are parameters of the development: the theorems hold for
    every completion service and every parser, a concrete parser is given
    for the examples. *)

From Stdlib Require Import String Ascii List ZArith Bool Lia.
Import ListNotations.

Local Open Scope list_scope.
Local Open Scope string_scope.

(** ** JavaScript values *)

Set Warnings "-register-all".

Inductive value : Type :=
| VUndef
| VNull
| VBool (b : bool)
| VNum (n : Z)
| VStr (s : string)
| VArr (xs : list value)
| VObj (props : list (string * value))  (** own properties, in order *)
| VFun (name : string).                 (** a built-in function object *)

(** Thrown JavaScript exceptions. *)
Inductive exn : Type :=
| TypeError
| SyntaxError
| AxiosError
| Error (message : string).

(** Result of a fallible JavaScript expression. *)
Inductive js (A : Type) : Type :=
| Return (a : A)
| Throw (e : exn).
Arguments Return {A} a.
Arguments Throw {A} e.

Definition js_bind {A B} (m : js A) (k : A -> js B) : js B :=
  match m with Return a => k a | Throw e => Throw e end.

Notation "'let!' x ':=' m 'in' k" := (js_bind m (fun x => k))
  (at level 200, x name, m at level 100, k at level 200).

Definition nl : string := String (ascii_of_nat 10) EmptyString.

(** [ToBoolean] *)
Definition truthy (v : value) : bool :=
  match v with
  | VUndef | VNull => false
  | VBool b => b
  | VNum n => negb (Z.eqb n 0)
  | VStr s => negb (String.eqb s "")
  | VArr _ | VObj _ | VFun _ => true
  end.

(** [typeof] *)
Definition typeof (v : value) : string :=
  match v with
  | VUndef => "undefined"
  | VNull => "object"
  | VBool _ => "boolean"
  | VNum _ => "number"
  | VStr _ => "string"
  | VArr _ | VObj _ => "object"
  | VFun _ => "function"
  end.

Definition is_array (v : value) : bool :=
  match v with VArr _ => true | _ => false end.

(** Decimal representation of an integer, as [Number.prototype.toString]. *)
Fixpoint pos_digits (fuel : nat) (n : Z) (acc : string) : string :=
  match fuel with
  | O => acc
  | S f =>
      let acc' := String (ascii_of_nat (48 + Z.to_nat (n mod 10))) acc in
      if Z.ltb n 10 then acc' else pos_digits f (n / 10) acc'
  end.

Definition string_of_Z (z : Z) : string :=
  match z with
  | Z0 => "0"
  | Zpos p => pos_digits (Pos.size_nat p) z ""
  | Zneg p => "-" ++ pos_digits (Pos.size_nat p) (Zpos p) ""
  end.

Fixpoint concat_sep (sep : string) (l : list string) : string :=
  match l with
  | [] => ""
  | [x] => x
  | x :: r => x ++ sep ++ concat_sep sep r
  end.

(** Strict equality [===] against a string literal. *)
Definition is_str (v : value) (s : string) : bool :=
  match v with VStr t => String.eqb t s | _ => false end.

(** ** Objects and property access *)

Fixpoint assoc (k : string) (ps : list (string * value)) : option value :=
  match ps with
  | [] => None
  | (k', v) :: r => if String.eqb k k' then Some v else assoc k r
  end.

(** [ToString], as used by template literals and by [JSON.parse] on its
    argument, and [ToPropertyKey], as used by [o[k]] and [k in o] (the two
    agree on every value here).  An object goes through [ToPrimitive] with
    hint string: its [toString] is called when it is a function, then its
    [valueOf].  A plain object inherits [Object.prototype.toString], which
    gives "[object Object]".  An own [toString] that is not a function
    (any JSON value) is skipped; [valueOf] is then
    [Object.prototype.valueOf], which returns the object itself, or an own
    JSON value, which is not callable: no primitive comes out and a
    TypeError is raised.  An own [toString] holding a function object is
    taken to be [Object.prototype.toString] (only a filter copying an
    inherited member puts one there, and no filter output is converted by
    the program).  An array is converted by [Array.prototype.join]: each
    element in turn, [null] and [undefined] as the empty string. *)
Fixpoint to_string (v : value) : js string :=
  match v with
  | VUndef => Return "undefined"
  | VNull => Return "null"
  | VBool true => Return "true"
  | VBool false => Return "false"
  | VNum n => Return (string_of_Z n)
  | VStr s => Return s
  | VArr xs =>
      let fix join (l : list value) : js (list string) :=
        match l with
        | [] => Return []
        | x :: r =>
            let! s := match x with VUndef | VNull => Return "" | _ => to_string x end in
            let! ss := join r in
            Return (s :: ss)
        end in
      let! ss := join xs in Return (concat_sep "," ss)
  | VObj ps =>
      match assoc "toString" ps with
      | None | Some (VFun _) => Return "[object Object]"
      | Some _ => Throw TypeError
      end
  | VFun name => Return ("function " ++ name ++ "() { [native code] }")
  end.

(** Define an own data property: replace in place, or append. *)
Fixpoint obj_set (ps : list (string * value)) (k : string) (v : value)
  : list (string * value) :=
  match ps with
  | [] => [(k, v)]
  | (k', w) :: r => if String.eqb k k' then (k', v) :: r else (k', w) :: obj_set r k v
  end.

Definition mem (k : string) (l : list string) : bool :=
  existsb (String.eqb k) l.

(** Members of [Object.prototype] (Node 18). *)
Definition object_proto_keys : list string :=
  ["constructor"; "__defineGetter__"; "__defineSetter__"; "hasOwnProperty";
   "__lookupGetter__"; "__lookupSetter__"; "isPrototypeOf";
   "propertyIsEnumerable"; "toString"; "valueOf"; "__proto__";
   "toLocaleString"].

(** Members of [Array.prototype] (Node 18). *)
Definition array_proto_keys : list string :=
  ["length"; "constructor"; "at"; "concat"; "copyWithin"; "fill"; "find";
   "findIndex"; "findLast"; "findLastIndex"; "lastIndexOf"; "pop"; "push";
   "reverse"; "shift"; "unshift"; "slice"; "sort"; "splice"; "includes";
   "indexOf"; "join"; "keys"; "entries"; "values"; "forEach"; "filter";
   "flat"; "flatMap"; "map"; "every"; "some"; "reduce"; "reduceRight";
   "toLocaleString"; "toString"].

(** Members of [String.prototype] (Node 18). *)
Definition string_proto_keys : list string :=
  ["length"; "constructor"; "anchor"; "at"; "big"; "blink"; "bold"; "charAt";
   "charCodeAt"; "codePointAt"; "concat"; "endsWith"; "fontcolor";
   "fontsize"; "fixed"; "includes"; "indexOf"; "italics"; "lastIndexOf";
   "link"; "localeCompare"; "match"; "matchAll"; "normalize"; "padEnd";
   "padStart"; "repeat"; "replace"; "replaceAll"; "search"; "slice";
   "small"; "split"; "strike"; "sub"; "substr"; "substring"; "sup";
   "startsWith"; "toString"; "trim"; "trimStart"; "trimLeft"; "trimEnd";
   "trimRight"; "toLocaleLowerCase"; "toLocaleUpperCase"; "toLowerCase";
   "toUpperCase"; "valueOf"].

(** The canonical index keys "0" .. "n-1" of an array of length n. *)
Definition index_keys (n : nat) : list string :=
  map (fun i => string_of_Z (Z.of_nat i)) (seq 0 n).

Fixpoint index_of (k : string) (i : nat) (xs : list value) : option value :=
  match xs with
  | [] => None
  | x :: r => if String.eqb k (string_of_Z (Z.of_nat i)) then Some x else index_of k (S i) r
  end.

Definition chars (s : string) : list value :=
  map (fun c => VStr (String c EmptyString)) (list_ascii_of_string s).

(** Property read [v[k]]; [null] and [undefined] raise a TypeError.
    An inherited member is a function object, except [__proto__] whose
    value (a prototype object) is also represented by a [VFun]: no code
    path below distinguishes them. *)
Definition get (v : value) (k : string) : js value :=
  match v with
  | VUndef | VNull => Throw TypeError
  | VObj ps =>
      match assoc k ps with
      | Some w => Return w
      | None => Return (if mem k object_proto_keys then VFun k else VUndef)
      end
  | VArr xs =>
      if String.eqb k "length" then Return (VNum (Z.of_nat (length xs))) else
      match index_of k 0 xs with
      | Some w => Return w
      | None =>
          Return (if mem k array_proto_keys || mem k object_proto_keys
                  then VFun k else VUndef)
      end
  | VStr s =>
      if String.eqb k "length" then Return (VNum (Z.of_nat (String.length s))) else
      match index_of k 0 (chars s) with
      | Some w => Return w
      | None =>
          Return (if mem k string_proto_keys || mem k object_proto_keys
                  then VFun k else VUndef)
      end
  | VBool _ | VNum _ =>
      Return (if mem k ["toString"; "valueOf"; "toLocaleString"] || mem k object_proto_keys
              then VFun k else VUndef)
  | VFun _ =>
      Return (if mem k ["name"; "length"; "call"; "apply"; "bind"] || mem k object_proto_keys
              then VFun k else VUndef)
  end.

(** The [in] operator [k in v]: own keys and inherited members; a
    primitive right operand raises a TypeError. *)
Definition js_in (k : string) (v : value) : js bool :=
  match v with
  | VObj ps =>
      Return (match assoc k ps with Some _ => true | None => mem k object_proto_keys end)
  | VArr xs =>
      Return (mem k (index_keys (length xs)) || mem k array_proto_keys
              || mem k object_proto_keys)
  | VFun _ =>
      Return (mem k ["name"; "length"; "call"; "apply"; "bind"] || mem k object_proto_keys)
  | _ => Throw TypeError
  end.

(** The expression [lval in rval]: a primitive right operand raises a
    TypeError, then the left operand is converted by [ToPropertyKey]. *)
Definition js_in_op (lval rval : value) : js bool :=
  match rval with
  | VObj _ | VArr _ | VFun _ => let! k := to_string lval in js_in k rval
  | _ => Throw TypeError
  end.

(** [Object.entries]: own enumerable string-keyed properties. *)
Definition object_entries (v : value) : js (list (string * value)) :=
  match v with
  | VUndef | VNull => Throw TypeError
  | VObj ps => Return ps
  | VArr xs => Return (combine (index_keys (length xs)) xs)
  | VStr s => Return (combine (index_keys (String.length s)) (chars s))
  | VBool _ | VNum _ | VFun _ => Return []
  end.

(** [for (const x of v)]: arrays and strings are iterable, anything else
    raises a TypeError. *)
Definition iterate (v : value) : js (list value) :=
  match v with
  | VArr xs => Return xs
  | VStr s => Return (chars s)
  | _ => Throw TypeError
  end.

(** Own enumerable properties copied by an object spread [{...v}]. *)
Definition spread (v : value) : list (string * value) :=
  match v with
  | VObj ps => ps
  | VArr xs => combine (index_keys (length xs)) xs
  | VStr s => combine (index_keys (String.length s)) (chars s)
  | _ => []
  end.

(** ** [JSON.stringify] *)

Definition hex_digit (n : nat) : ascii :=
  if Nat.ltb n 10 then ascii_of_nat (48 + n) else ascii_of_nat (87 + n).

(** Quoting of a string literal ([QuoteJSONString]). *)
Fixpoint quote_chars (l : list ascii) : string :=
  match l with
  | [] => ""
  | c :: r =>
      let n := nat_of_ascii c in
      let e :=
        if Nat.eqb n 34 then "\" ++ String c EmptyString
        else if Nat.eqb n 92 then "\\"
        else if Nat.eqb n 8 then "\b"
        else if Nat.eqb n 12 then "\f"
        else if Nat.eqb n 10 then "\n"
        else if Nat.eqb n 13 then "\r"
        else if Nat.eqb n 9 then "\t"
        else if Nat.ltb n 32 then
          "\u00" ++ String (hex_digit (n / 16)) (String (hex_digit (n mod 16)) EmptyString)
        else String c EmptyString in
      e ++ quote_chars r
  end.

Definition quote (s : string) : string :=
  String "034"%char (quote_chars (list_ascii_of_string s) ++ String "034"%char EmptyString).

(** [JSON.stringify(v, null, gap)] at indentation [indent]; [None] is the
    result [undefined] (for [undefined] and functions). *)
Fixpoint stringify_at (gap indent : string) (v : value) {struct v} : option string :=
  let ind' := indent ++ gap in
  match v with
  | VUndef | VFun _ => None
  | VNull => Some "null"
  | VBool true => Some "true"
  | VBool false => Some "false"
  | VNum n => Some (string_of_Z n)
  | VStr s => Some (quote s)
  | VArr xs =>
      let items :=
        (fix go (xs : list value) : list string :=
           match xs with
           | [] => []
           | x :: r =>
               match stringify_at gap ind' x with
               | Some s => s | None => "null"
               end :: go r
           end) xs in
      match items with
      | [] => Some "[]"
      | _ =>
          if String.eqb gap "" then Some ("[" ++ concat_sep "," items ++ "]")
          else Some ("[" ++ nl ++ ind' ++ concat_sep ("," ++ nl ++ ind') items
                     ++ nl ++ indent ++ "]")
      end
  | VObj ps =>
      let items :=
        (fix go (ps : list (string * value)) : list string :=
           match ps with
           | [] => []
           | (k, x) :: r =>
               match stringify_at gap ind' x with
               | Some s =>
                   (quote k ++ ":" ++ (if String.eqb gap "" then "" else " ") ++ s) :: go r
               | None => go r
               end
           end) ps in
      match items with
      | [] => Some "{}"
      | _ =>
          if String.eqb gap "" then Some ("{" ++ concat_sep "," items ++ "}")
          else Some ("{" ++ nl ++ ind' ++ concat_sep ("," ++ nl ++ ind') items
                     ++ nl ++ indent ++ "}")
      end
  end.

(** [JSON.stringify(v)] and [JSON.stringify(v, null, 2)] as they appear in a
    template literal ([undefined] prints as "undefined"). *)
Definition JSON_stringify (v : value) : string :=
  match stringify_at "" "" v with Some s => s | None => "undefined" end.

Definition JSON_stringify_pretty (v : value) : string :=
  match stringify_at "  " "" v with Some s => s | None => "undefined" end.

(** ** The two regular expressions

    A match is the matched text [m[0]] and the first group [m[1]]. *)

Record re_match := { m0 : string; m1 : option string }.

Fixpoint starts_with (p s : list ascii) : bool :=
  match p, s with
  | [], _ => true
  | c :: p', d :: s' => Ascii.eqb c d && starts_with p' s'
  | _ :: _, [] => false
  end.

Definition fence : list ascii := list_ascii_of_string "```".
Definition nl_fence : list ascii := ascii_of_nat 10 :: fence.

(** [([\s\S]*?)\n?```] at the current position: the lazy group grows one
    character at a time; at each length the optional newline is tried
    first.  Returns the group and the text of the closing part. *)
Fixpoint lazy_close (s : list ascii) : option (list ascii * list ascii) :=
  if starts_with nl_fence s then Some ([], nl_fence)
  else if starts_with fence s then Some ([], fence)
  else match s with
       | [] => None
       | c :: r =>
           match lazy_close r with
           | Some (g, cl) => Some (c :: g, cl)
           | None => None
           end
       end.

(** [(?:json)?\n?([\s\S]*?)\n?```] right after an opening fence, with the
    backtracking order of the two greedy optionals: returns the consumed
    prefix, the group and the closing part. *)
Definition fence_body (s : list ascii) : option (list ascii * list ascii * list ascii) :=
  let json := list_ascii_of_string "json" in
  let nlc := [ascii_of_nat 10] in
  let try_at (pre : list ascii) :=
    if starts_with pre s then
      match lazy_close (skipn (length pre) s) with
      | Some (g, cl) => Some (pre, g, cl)
      | None => None
      end
    else None in
  match try_at (app json nlc) with
  | Some r => Some r
  | None =>
      match try_at json with
      | Some r => Some r
      | None =>
          match try_at nlc with
          | Some r => Some r
          | None => try_at []
          end
      end
  end.

(** [text.match(/```(?:json)?\n?([\s\S]*?)\n?```/)]: leftmost match. *)
Fixpoint fence_match_l (s : list ascii) : option re_match :=
  match
    (if starts_with fence s then fence_body (skipn 3 s) else None)
  with
  | Some (pre, g, cl) =>
      Some {| m0 := string_of_list_ascii (app fence (app pre (app g cl)));
              m1 := Some (string_of_list_ascii g) |}
  | None =>
      match s with
      | [] => None
      | _ :: r => fence_match_l r
      end
  end.

Definition fence_match (s : string) : option re_match :=
  fence_match_l (list_ascii_of_string s).

(** Position of the last occurrence of [c] in [s], if any. *)
Fixpoint last_index (c : ascii) (s : list ascii) : option nat :=
  match s with
  | [] => None
  | d :: r =>
      match last_index c r with
      | Some i => Some (S i)
      | None => if Ascii.eqb c d then Some 0 else None
      end
  end.

(** [\{[\s\S]*\}] at the current position: an opening brace, then the
    greedy body backs off to the last closing brace. *)
Definition brace_at (s : list ascii) : option (list ascii) :=
  match s with
  | c :: r =>
      if Ascii.eqb c "{"%char then
        match last_index "}"%char r with
        | Some i => Some (c :: firstn (S i) r)
        | None => None
        end
      else None
  | [] => None
  end.

(** [text.match(/\{[\s\S]*\}/)]: leftmost match, no group. *)
Fixpoint brace_match_l (s : list ascii) : option re_match :=
  match brace_at s with
  | Some m => Some {| m0 := string_of_list_ascii m; m1 := None |}
  | None =>
      match s with
      | [] => None
      | _ :: r => brace_match_l r
      end
  end.

Definition brace_match (s : string) : option re_match :=
  brace_match_l (list_ascii_of_string s).

(** ** [validateAgainstSchema] (lines 36-67) *)

(** The type test of line 51-55 for a declared type [t] and a value. *)
Definition type_mismatch (t value_ : value) : bool :=
  (is_str t "number" && negb (String.eqb (typeof value_) "number")) ||
  (is_str t "string" && negb (String.eqb (typeof value_) "string")) ||
  (is_str t "boolean" && negb (String.eqb (typeof value_) "boolean")) ||
  (is_str t "array" && negb (is_array value_)) ||
  (is_str t "object" &&
     (negb (String.eqb (typeof value_) "object") || is_array value_
      || match value_ with VNull => true | _ => false end)).

(** [for (const prop of required) if (!(prop in data)) return false;] *)
Fixpoint check_required (keys : list value) (data : value) : js bool :=
  match keys with
  | [] => Return true
  | prop :: r =>
      let! present := js_in_op prop data in
      if present then check_required r data else Return false
  end.

(** [schema.properties?.[prop]] *)
Definition prop_schema (schema : value) (prop : string) : js value :=
  let! props := get schema "properties" in
  match props with
  | VUndef | VNull => Return VUndef
  | _ => get props prop
  end.

(** The loop over [Object.entries(data)] of lines 48-60. *)
Fixpoint check_types (schema : value) (entries : list (string * value)) : js bool :=
  match entries with
  | [] => Return true
  | (prop, v) :: r =>
      let! ps := prop_schema schema prop in
      if truthy ps then
        let! t := get ps "type" in
        if truthy t then
          if type_mismatch t v then Return false else check_types schema r
        else check_types schema r
      else check_types schema r
  end.

(** The body of the [try] block. *)
Definition validate_body (data schema : value) : js bool :=
  let! required := get schema "required" in
  let! keys := iterate (if truthy required then required else VArr []) in
  let! ok := check_required keys data in
  if ok then
    let! entries := object_entries data in
    check_types schema entries
  else Return false.

(** [catch (error) { return false; }] *)
Definition validateAgainstSchema (data schema : value) : bool :=
  match validate_body data schema with
  | Return b => b
  | Throw _ => false
  end.

(** ** [createMinimalValidObject] (lines 190-226) *)

Definition no_json_error : value :=
  VObj [("error", VStr "No se pudo generar JSON válido de la respuesta")].

(** [result[k] = v] on a plain object whose prototype is
    [Object.prototype]: an own data property is defined.  Assigning to
    [__proto__] goes through the inherited accessor instead and defines no
    own property: a primitive value is ignored, an object or [null] becomes
    the prototype of [result] (and after [null], a further [__proto__]
    assignment defines an own property).  The prototype is not part of
    [value]: the object keeps its own properties only, so the model follows
    the code exactly as long as no key [__proto__] is assigned.  The
    properties below that build objects with [assign] exclude that key. *)
Definition assign (ps : list (string * value)) (k : string) (v : value)
  : list (string * value) :=
  if String.eqb k "__proto__" then ps else obj_set ps k v.

(** The [switch (propSchema.type)] of lines 203-222. *)
Definition minimal_value (propName propSchema : value) : js value :=
  let! t := get propSchema "type" in
  if is_str t "string" then
    let! d := get propSchema "description" in
    if truthy d then Return d else
    let! s := to_string propName in Return (VStr (s ++ " autogenerado"))
  else if is_str t "number" || is_str t "integer" then Return (VNum 0)
  else if is_str t "boolean" then Return (VBool false)
  else if is_str t "array" then Return (VArr [])
  else if is_str t "object" then Return (VObj [])
  else Return VNull.

Fixpoint fill_required (schema : value) (keys : list value)
    (result : list (string * value)) : js (list (string * value)) :=
  match keys with
  | [] => Return result
  | propName :: r =>
      let! props := get schema "properties" in
      let! key := to_string propName in
      let! propSchema := get props key in
      if truthy propSchema then
        let! v := minimal_value propName propSchema in
        fill_required schema r (assign result key v)
      else fill_required schema r result
  end.

Definition createMinimalValidObject (schema : value) : js value :=
  if negb (truthy schema) then Return no_json_error else
  let! props := get schema "properties" in
  if negb (truthy props) then Return no_json_error else
  let! required := get schema "required" in
  let! keys := iterate (if truthy required then required else VArr []) in
  let! result := fill_required schema keys [] in
  Return (VObj result).

(** ** Prompt augmentation (lines 74-82 and 242-268) *)

Definition createJsonFormatSystemPrompt (schema : value) : string :=
  "Debes responder con JSON válido que siga estrictamente este esquema:" ++ nl
  ++ JSON_stringify_pretty schema ++ nl ++ nl
  ++ "No incluyas explicaciones, formato markdown ni texto fuera de la estructura JSON." ++ nl
  ++ "Tu respuesta completa debe poder analizarse como JSON. No envuelvas el JSON en bloques de código ni markdown." ++ nl
  ++ "Responde únicamente con un objeto JSON válido que coincida con el esquema anterior.".

(** [msg.role === 'system'] *)
Definition is_system (msg : value) : js bool :=
  let! r := get msg "role" in Return (is_str r "system").

(** [Array.prototype.some], stopping at the first [true]. *)
Fixpoint js_some (p : value -> js bool) (l : list value) : js bool :=
  match l with
  | [] => Return false
  | x :: r => let! b := p x in if b then Return true else js_some p r
  end.

(** [Array.prototype.map] *)
Fixpoint js_map (f : value -> js value) (l : list value) : js (list value) :=
  match l with
  | [] => Return []
  | x :: r => let! y := f x in let! ys := js_map f r in Return (y :: ys)
  end.

(** [{ ...msg, content: `${msg.content}\n\n${prompt}` }] *)
Definition append_instruction (prompt : string) (msg : value) : js value :=
  let! c := get msg "content" in
  let! t := to_string c in
  Return (VObj (obj_set (spread msg) "content" (VStr (t ++ nl ++ nl ++ prompt)))).

(** The new message sequence [modifiedMessages] of lines 243-267, when a
    schema is requested. *)
Definition augment_messages (messages : list value) (schema : value) : js (list value) :=
  let prompt := createJsonFormatSystemPrompt schema in
  let! hasSystemMessage := js_some is_system messages in
  if hasSystemMessage then
    js_map (fun msg =>
              let! sys := is_system msg in
              if sys then append_instruction prompt msg else Return msg) messages
  else Return (VObj [("role", VStr "system"); ("content", VStr prompt)] :: messages).

(** ** Effects: exceptions and the log of requests sent to the completion
    service *)

Definition M (A : Type) : Type := list value -> list value * js A.

Definition ret {A} (a : A) : M A := fun log => (log, Return a).
Definition raise {A} (e : exn) : M A := fun log => (log, Throw e).
Definition lift {A} (m : js A) : M A := fun log => (log, m).

Definition bind {A B} (m : M A) (k : A -> M B) : M B :=
  fun log =>
    match m log with
    | (log', Return a) => k a log'
    | (log', Throw e) => (log', Throw e)
    end.

(** [try { m } catch (e) { h(e) }] *)
Definition try_catch {A} (m : M A) (h : exn -> M A) : M A :=
  fun log =>
    match m log with
    | (log', Throw e) => h e log'
    | r => r
    end.

Notation "'let*' x ':=' m 'in' k" := (bind m (fun x => k))
  (at level 200, x name, m at level 100, k at level 200).

(** [error.message]; the engine's wording of built-in errors is not
    represented. *)
Definition exn_message (e : exn) : string :=
  match e with
  | TypeError => "TypeError"
  | SyntaxError => "SyntaxError"
  | AxiosError => "AxiosError"
  | Error m => m
  end.

(** An HTTP response: status code and JSON body ([timestamp] and [latency]
    are wall-clock readings and are left out). *)
Record response := { status : Z; payload : value }.

Definition reply (code : Z) (fields : list (string * value)) : response :=
  {| status := code; payload := VObj fields |}.

(** ** Transforms (lines 331-345) *)

Fixpoint filter_fields (result : value) (fields : list value)
    (acc : list (string * value)) : js (list (string * value)) :=
  match fields with
  | [] => Return acc
  | field :: r =>
      if truthy result then
        let! present := js_in_op field result in
        if present then
          let! k := to_string field in
          let! v := get result k in
          filter_fields result r (assign acc k v)
        else filter_fields result r acc
      else filter_fields result r acc
  end.

Fixpoint apply_transforms (transforms : list value) (result : value) : js value :=
  match transforms with
  | [] => Return result
  | transform :: r =>
      let! ty := get transform "type" in
      if is_str ty "filter" then
        let! fields := get transform "fields" in
        if truthy fields then
          let! fs := iterate fields in
          let! filtered := filter_fields result fs [] in
          apply_transforms r (VObj filtered)
        else apply_transforms r result
      else apply_transforms r result
  end.

(** ** The pipeline, over a parser and a completion service *)

Section Pipeline.

(** [JSON.parse]: [None] when it throws a SyntaxError. *)
Variable json_parse : string -> option value.

(** [axios.post(`${OLLAMA_API}/api/chat`, body)]: the [data] of the
    response, or [None] when the request is rejected (network error,
    timeout, non-2xx status). *)
Variable ollama_chat : value -> option value.

(** [process.env.TRANSFORM_MODEL || DEFAULT_MODEL] *)
Variable transform_model : string.

Definition post_chat (body : value) : M value :=
  fun log =>
    (app log [body],
     match ollama_chat body with
     | Some data => Return data
     | None => Throw AxiosError
     end).

Definition parse_or_throw (s : string) : js value :=
  match json_parse s with
  | Some v => Return v
  | None => Throw SyntaxError
  end.

Definition transform_system_prompt : string :=
  "Eres un asistente de transformación JSON. Convierte el siguiente texto en un objeto JSON válido que siga el esquema especificado. Solo genera el objeto JSON sin explicaciones ni markdown.".

(** The request body of lines 144-163, with the text [t] of [${text}]. *)
Definition regeneration_body (t : string) (schema : value) : value :=
  VObj [("model", VStr transform_model);
        ("messages",
          VArr [VObj [("role", VStr "system"); ("content", VStr transform_system_prompt)];
                VObj [("role", VStr "user");
                      ("content",
                        VStr ("Convierte este texto a JSON siguiendo este esquema: "
                              ++ JSON_stringify schema ++ nl ++ nl
                              ++ "Texto a convertir: " ++ t))]]);
        ("stream", VBool false)].

(** The template literal of line 152 converts [text]; it may raise. *)
Definition regeneration_request (text schema : value) : js value :=
  let! t := to_string text in Return (regeneration_body t schema).

(** [jsonMatch[1] || jsonMatch[0]] *)
Definition match_text (m : re_match) : string :=
  match m1 m with
  | Some g => if truthy (VStr g) then g else m0 m
  | None => m0 m
  end.

(** Lines 165-177, from the completion's [content]. *)
Definition parse_completion (content : value) : js value :=
  match content with
  | VStr c =>
      let jsonMatch :=
        match fence_match c with
        | Some m => Some m
        | None => brace_match c
        end in
      match jsonMatch with
      | Some m => parse_or_throw (match_text m)
      | None => parse_or_throw c
      end
  | _ => Throw TypeError  (** [.match] is not a function / of undefined *)
  end.

(** [generateJsonFromText] (lines 141-183). *)
Definition generateJsonFromText (text schema : value) : M value :=
  try_catch
    (let* body := lift (regeneration_request text schema) in
     let* data := post_chat body in
     let* message := lift (get data "message") in
     let* content := lift (get message "content") in
     lift (parse_completion content))
    (fun _ => lift (createMinimalValidObject schema)).

Definition extraction_error : exn :=
  Error "No se pudo extraer JSON válido de la respuesta".

(** [extractJsonFromText] (lines 90-133). *)
Definition extractJsonFromText (text schema : value) : M value :=
  let last_resort :=
    if truthy schema then generateJsonFromText text schema
    else raise extraction_error in
  let brace_step (s : string) :=
    match brace_match s with
    | Some m =>
        match json_parse (m0 m) with
        | Some v => ret v
        | None => last_resort
        end
    | None => last_resort
    end in
  let direct :=
    match to_string text with
    | Return s => json_parse s
    | Throw _ => None  (** [JSON.parse] raises the TypeError of [ToString] *)
    end in
  match direct with
  | Some v => ret v
  | None =>
      match text with
      | VStr s =>
          match fence_match s with
          | Some m =>
              match json_parse (match m1 m with Some g => g | None => "undefined" end) with
              | Some v => ret v
              | None => brace_step s
              end
          | None => brace_step s
          end
      | _ => raise TypeError  (** [text.match] is not a function *)
      end
  end.

Definition warning_text : string :=
  "No se pudo analizar la respuesta del modelo como JSON. Devolviendo fallback generado.".

Definition service_name (service : value) : value :=
  if truthy service then service else VStr "ollama-middleware".

(** The schema-path block of lines 293-328: [inl] is an early response,
    [inr] the value of [result] afterwards. *)
Definition schema_path (model service content schema : value) : M (response + value) :=
  try_catch
    (let* parsedJson := extractJsonFromText content schema in
     if truthy schema && negb (validateAgainstSchema parsedJson schema) then
       let* r := generateJsonFromText content schema in ret (inr r)
     else ret (inr parsedJson))
    (fun jsonError =>
       if truthy schema then
         let* result := lift (createMinimalValidObject schema) in
         ret (inl (reply 200 [("model", model); ("result", result);
                             ("service", service_name service);
                             ("warning", VStr warning_text)]))
       else
         ret (inl (reply 400 [("error", VStr "Falló al analizar JSON de la respuesta");
                             ("originalResponse", content);
                             ("parseError", VStr (exn_message jsonError))]))).

(** [response_format && response_format.type === 'json_schema'] *)
Definition json_schema_requested (response_format : value) : js bool :=
  if truthy response_format then
    let! t := get response_format "type" in Return (is_str t "json_schema")
  else Return false.

(** [!response.data || !response.data.message || !response.data.message.content] *)
Definition invalid_reply (data : value) : js bool :=
  if negb (truthy data) then Return true else
  let! message := get data "message" in
  if negb (truthy message) then Return true else
  let! content := get message "content" in
  Return (negb (truthy content)).

(** [app.post('/api/structured-chat', ...)] (lines 229-365). *)
Definition structured_chat (req_body : value) : M response :=
  try_catch
    (let* model := lift (get req_body "model") in
     let* messages := lift (get req_body "messages") in
     let* response_format := lift (get req_body "response_format") in
     let* transforms := lift (get req_body "transforms") in
     let* service := lift (get req_body "service") in
     if negb (truthy model) then
       ret (reply 400 [("error", VStr "Se requiere especificar un modelo")])
     else
     match messages with
     | VArr ((_ :: _) as msgs) =>
         let* requested := lift (json_schema_requested response_format) in
         let* schema := (if requested then lift (get response_format "schema") else ret VUndef) in
         let* modifiedMessages :=
           (if requested && truthy schema then lift (augment_messages msgs schema)
            else ret msgs) in
         (* [console.log(`... ${model}`)] *)
         let* model_text := lift (to_string model) in
         let* options := lift (get req_body "options") in
         let ollamaRequest :=
           VObj ([("model", model); ("messages", VArr modifiedMessages);
                  ("stream", VBool false)]
                 ++ (if truthy options then [("options", options)] else []))%list in
         let* data := post_chat ollamaRequest in
         let* bad := lift (invalid_reply data) in
         if bad then ret (reply 500 [("error", VStr "Respuesta inválida de Ollama")]) else
         let* message := lift (get data "message") in
         let* content := lift (get message "content") in
         let* step :=
           (if requested then schema_path model service content schema
            else ret (inr content)) in
         match step with
         | inl early => ret early
         | inr result =>
             let* result :=
               (match transforms with
                | VArr ts => lift (apply_transforms ts result)
                | _ => ret result
                end) in
             ret (reply 200 [("model", model); ("result", result);
                             ("service", service_name service)])
         end
     | _ => ret (reply 400 [("error", VStr "Se requieren mensajes válidos")])
     end)
    (fun error =>
       ret (reply 500 [("error", VStr "Error del servidor");
                       ("message", VStr (exn_message error))])).

End Pipeline.

(** ** The route [POST /api/chat] (lines 368-419) *)

(** What the route sends back: a JSON body, or the answer of the
    completion service piped to the client ([response.data.pipe(res)];
    with [responseType: 'stream'] the [data] is a stream). *)
Inductive chat_reply : Type :=
| JsonReply (r : response)
| Streamed (data : value).

(** A default in a destructuring pattern, [{ x = d } = obj]: it applies
    when the property is [undefined]. *)
Definition default_to (d v : value) : value :=
  match v with VUndef => d | _ => v end.

(** [{ model, messages, stream: <flag>, ...options && { options } }]: a
    falsy [options] spreads nothing. *)
Definition chat_request (model messages options : value) (streaming : bool) : value :=
  VObj ([("model", model); ("messages", messages); ("stream", VBool streaming)]
        ++ (if truthy options then [("options", options)] else []))%list.

(** [{ ...response.data, timestamp: ..., latency: ... }] with the two
    wall-clock fields left out. *)
Definition without_clock (ps : list (string * value)) : list (string * value) :=
  filter (fun kv => negb (String.eqb (fst kv) "timestamp" || String.eqb (fst kv) "latency")) ps.

Section ChatRoute.

Variable ollama_chat : value -> option value.

(** [DEFAULT_MODEL] *)
Variable default_model : string.

Definition simple_chat (req_body : value) : M chat_reply :=
  try_catch
    (let* model0 := lift (get req_body "model") in
     let* messages := lift (get req_body "messages") in
     let* stream0 := lift (get req_body "stream") in
     let* options := lift (get req_body "options") in
     let model := default_to (VStr default_model) model0 in
     let stream := default_to (VBool false) stream0 in
     if negb (truthy messages) || negb (is_array messages) then
       ret (JsonReply (reply 400 [("error", VStr "Se requieren mensajes válidos")]))
     else if truthy stream then
       let* data := post_chat ollama_chat (chat_request model messages options true) in
       ret (Streamed data)
     else
       let* data := post_chat ollama_chat (chat_request model messages options false) in
       ret (JsonReply (reply 200 (without_clock (spread data)))))
    (fun error =>
       ret (JsonReply (reply 500 [("error", VStr "Error del servidor");
                                  ("message", VStr (exn_message error))]))).

End ChatRoute.

(** ** A concrete [JSON.parse]

    Used to run the pipeline on examples.  Number literals with a fraction
    or an exponent, and [\u] escapes above 0xFF, are outside the value
    model and are rejected by this instance. *)

Module JsonParse.

Definition is_ws (c : ascii) : bool :=
  let n := nat_of_ascii c in
  Nat.eqb n 32 || Nat.eqb n 9 || Nat.eqb n 10 || Nat.eqb n 13.

Fixpoint skip_ws (s : list ascii) : list ascii :=
  match s with
  | c :: r => if is_ws c then skip_ws r else s
  | [] => []
  end.

Definition digit_val (c : ascii) : option nat :=
  let n := nat_of_ascii c in
  if Nat.leb 48 n && Nat.leb n 57 then Some (n - 48) else None.

Definition hex_val (c : ascii) : option nat :=
  let n := nat_of_ascii c in
  if Nat.leb 48 n && Nat.leb n 57 then Some (n - 48)
  else if Nat.leb 65 n && Nat.leb n 70 then Some (n - 55)
  else if Nat.leb 97 n && Nat.leb n 102 then Some (n - 87)
  else None.

(** Digits of an integer part: accumulated value and rest. *)
Fixpoint digits (s : list ascii) (acc : Z) : Z * list ascii :=
  match s with
  | c :: r =>
      match digit_val c with
      | Some d => digits r (acc * 10 + Z.of_nat d)%Z
      | None => (acc, s)
      end
  | [] => (acc, s)
  end.

(** An optional minus sign, then 0 or a digit sequence without leading
    zero, not followed by [.], [e] or [E]. *)
Definition number (s : list ascii) : option (value * list ascii) :=
  let '(neg, s1) := match s with
                    | "-"%char :: r => (true, r)
                    | _ => (false, s)
                    end in
  let body :=
    match s1 with
    | "0"%char :: r => Some (0%Z, r)
    | c :: _ =>
        match digit_val c with
        | Some _ => Some (digits s1 0)
        | None => None
        end
    | [] => None
    end in
  match body with
  | Some (n, r) =>
      match r with
      | "."%char :: _ | "e"%char :: _ | "E"%char :: _ => None
      | _ => Some (VNum (if neg then Z.opp n else n), r)
      end
  | None => None
  end.

(** The characters of a string literal after its opening quote. *)
Fixpoint string_lit (s : list ascii) (acc : list ascii) : option (string * list ascii) :=
  match s with
  | "034"%char :: r => Some (string_of_list_ascii (rev acc), r)
  | "\"%char :: "u"%char :: a :: b :: c :: d :: r =>
      match hex_val a, hex_val b, hex_val c, hex_val d with
      | Some 0, Some 0, Some x, Some y => string_lit r (ascii_of_nat (16 * x + y) :: acc)
      | _, _, _, _ => None
      end
  | "\"%char :: e :: r =>
      let esc :=
        match e with
        | "034"%char => Some e
        | "\"%char => Some e
        | "/"%char => Some e
        | "b"%char => Some (ascii_of_nat 8)
        | "f"%char => Some (ascii_of_nat 12)
        | "n"%char => Some (ascii_of_nat 10)
        | "r"%char => Some (ascii_of_nat 13)
        | "t"%char => Some (ascii_of_nat 9)
        | _ => None
        end in
      match esc with
      | Some c => string_lit r (c :: acc)
      | None => None
      end
  | c :: r => if Nat.ltb (nat_of_ascii c) 32 then None else string_lit r (c :: acc)
  | [] => None
  end.

Fixpoint literal (w s : list ascii) : option (list ascii) :=
  match w, s with
  | [], _ => Some s
  | c :: w', d :: s' => if Ascii.eqb c d then literal w' s' else None
  | _ :: _, [] => None
  end.

(** A value, an array tail and an object tail; [fuel] bounds the nesting
    of calls. *)
Fixpoint pvalue (fuel : nat) (s : list ascii) : option (value * list ascii) :=
  match fuel with
  | O => None
  | S f =>
      match skip_ws s with
      | "{"%char :: r =>
          match skip_ws r with
          | "}"%char :: r' => Some (VObj [], r')
          | _ => pobject f r []
          end
      | "["%char :: r =>
          match skip_ws r with
          | "]"%char :: r' => Some (VArr [], r')
          | _ => parray f r []
          end
      | "034"%char :: r =>
          match string_lit r [] with
          | Some (str, r') => Some (VStr str, r')
          | None => None
          end
      | s' =>
          match literal (list_ascii_of_string "null") s' with
          | Some r => Some (VNull, r)
          | None =>
          match literal (list_ascii_of_string "true") s' with
          | Some r => Some (VBool true, r)
          | None =>
          match literal (list_ascii_of_string "false") s' with
          | Some r => Some (VBool false, r)
          | None => number s'
          end end end
      end
  end
with parray (fuel : nat) (s : list ascii) (acc : list value) : option (value * list ascii) :=
  match fuel with
  | O => None
  | S f =>
      match pvalue f s with
      | Some (v, r) =>
          match skip_ws r with
          | ","%char :: r' => parray f r' (v :: acc)
          | "]"%char :: r' => Some (VArr (rev (v :: acc)), r')
          | _ => None
          end
      | None => None
      end
  end
with pobject (fuel : nat) (s : list ascii) (acc : list (string * value))
    : option (value * list ascii) :=
  match fuel with
  | O => None
  | S f =>
      match skip_ws s with
      | "034"%char :: r =>
          match string_lit r [] with
          | Some (k, r1) =>
              match skip_ws r1 with
              | ":"%char :: r2 =>
                  match pvalue f r2 with
                  | Some (v, r3) =>
                      (** a repeated key keeps its place and takes the last value *)
                      let acc' := obj_set acc k v in
                      match skip_ws r3 with
                      | ","%char :: r4 => pobject f r4 acc'
                      | "}"%char :: r4 => Some (VObj acc', r4)
                      | _ => None
                      end
                  | None => None
                  end
              | _ => None
              end
          | None => None
          end
      | _ => None
      end
  end.

Definition parse (s : string) : option value :=
  let l := list_ascii_of_string s in
  match pvalue (2 * length l + 2) l with
  | Some (v, r) => match skip_ws r with [] => Some v | _ => None end
  | None => None
  end.

End JsonParse.

Definition JSON_parse : string -> option value := JsonParse.parse.

(** ** Augmentation over a heap

    The route's message array and its message objects live in the heap of
    the request: [[...messages]], [messages.map] and the object spread
    allocate, [unshift] mutates.  This store model tracks which objects the
    new sequence shares with the caller's. *)

Module Heap.














End Heap.

(** ** Shape of the inputs of the data model *)

(** [schema.required || []] as a list, when it is a sequence. *)
Definition required_list (schema : value) : option (list value) :=
  match get schema "required" with
  | Return r =>
      if truthy r then match r with VArr xs => Some xs | _ => None end
      else Some []
  | Throw _ => None
  end.

(** The Schema of the data model: absent, or its [required] entry is
    absent or a sequence of property names (strings). *)
Definition schema_shape_ok (schema : value) : Prop :=
  truthy schema = false \/ exists names, required_list schema = Some (map VStr names).


Definition is_object (v : value) : Prop := exists ps, v = VObj ps.

(** The callback of [messages.map] on one message. *)
Definition augment_one (prompt : string) (msg : value) : js value :=
  let! sys := is_system msg in
  if sys then append_instruction prompt msg else Return msg.

(** One message before and after the callback. *)
Definition augmented_pair (prompt : string) (m1 m2 : value) : Prop :=
  (is_system m1 = Return true /\ is_system m2 = Return true /\
   exists c t, get m2 "content" = Return (VStr (t ++ nl ++ nl ++ prompt))
               /\ get m1 "content" = Return c /\ to_string c = Return t)
  \/ (is_system m1 = Return false /\ m2 = m1).

Definition is_digit (c : ascii) : bool :=
  Nat.leb 48 (nat_of_ascii c) && Nat.leb (nat_of_ascii c) 57.

(** A key that does not start with a digit is no array index. *)
Definition not_index_key (k : string) : bool :=
  match k with String c _ => negb (is_digit c) | EmptyString => false end.

(** The type test of the validator for one entry [prop: value]: [true]
    to go on with the next entry, [false] to return [false]. *)
Definition entry_of (propSchema v : value) : js bool :=
  if truthy propSchema then
    let! t := get propSchema "type" in
    if truthy t then Return (negb (type_mismatch t v)) else Return true
  else Return true.

Definition entry_ok (schema : value) (prop : string) (v : value) : js bool :=
  let! ps := prop_schema schema prop in entry_of ps v.

(** The validator's contract, read on a JSON object schema [ss]: the type
    declared for [k] in [ss.properties], the type agreement of a value,
    and the presence of a key in an object document through [in] (an own
    key, or a member inherited from [Object.prototype]). *)
Definition declared_type (ss : list (string * value)) (k : string) : option string :=
  match assoc "properties" ss with
  | Some (VObj ps) =>
      match assoc k ps with
      | Some (VObj pe) =>
          match assoc "type" pe with Some (VStr t) => Some t | _ => None end
      | _ => None
      end
  | _ => None
  end.

Definition type_agrees (t : string) (v : value) : bool :=
  if String.eqb t "number" then match v with VNum _ => true | _ => false end
  else if String.eqb t "string" then match v with VStr _ => true | _ => false end
  else if String.eqb t "boolean" then match v with VBool _ => true | _ => false end
  else if String.eqb t "array" then match v with VArr _ => true | _ => false end
  else if String.eqb t "object" then match v with VObj _ => true | _ => false end
  else true.

Definition in_object (k : string) (ds : list (string * value)) : bool :=
  match assoc k ds with Some _ => true | None => mem k object_proto_keys end.

Definition entry_agrees (ss : list (string * value)) (kv : string * value) : bool :=
  match declared_type ss (fst kv) with Some t => type_agrees t (snd kv) | None => true end.

(** The text extraction of [extractJsonFromText] read as a list of
    candidate strings tried in order: the whole text, the first fenced
    block's content, the span from the first [{] to the last [}]. *)
Definition extraction_candidates (s : string) : list string :=
  [s]
  ++ match fence_match s with
     | Some m => [match m1 m with Some g => g | None => "undefined" end]
     | None => []
     end
  ++ match brace_match s with Some m => [m0 m] | None => [] end.

(** The first candidate that parses. *)
Fixpoint first_success (parse : string -> option value) (cands : list string) : option value :=
  match cands with
  | [] => None
  | c :: r => match parse c with Some v => Some v | None => first_success parse r end
  end.

(** The body of the [try] block of [generateJsonFromText] once the
    completion service has answered with [data]. *)
Definition completion_result (json_parse : string -> option value) (data : value) : js value :=
  let! message := get data "message" in
  let! content := get message "content" in
  parse_completion json_parse content.

(** Every property schema of type [string] has a [description] that is
    absent, falsy or a string. *)
Definition descriptions_are_strings (ps : list (string * value)) : Prop :=
  forall k pe d,
    assoc k ps = Some (VObj pe) -> assoc "type" pe = Some (VStr "string") ->
    assoc "description" pe = Some d -> truthy d = true -> exists s, d = VStr s.

(** A computation of the route leaves the requests already sent in place
    and sends at most [n] more. *)
Definition appends_at_most {A} (n : nat) (m : M A) : Prop :=
  forall log, exists extra, fst (m log) = (log ++ extra)%list /\ length extra <= n.

(** ** Example inputs *)

Definition no_service : value -> option value := fun _ => None.

Definition user_msg : value := VObj [("role", VStr "user"); ("content", VStr "hi")].
Definition system_msg : value := VObj [("role", VStr "system"); ("content", VStr "be brief")].

Definition number_schema : value :=
  VObj [("properties", VObj [("a", VObj [("type", VStr "number")])]);
        ("required", VArr [VStr "a"])].

(** A completion service that always answers with the text [c]. *)
Definition answer_service (c : string) : value -> option value :=
  fun _ => Some (VObj [("message", VObj [("role", VStr "assistant"); ("content", VStr c)])]).

(** A schema with a number and a described string property, both required. *)
Definition person_props : list (string * value) :=
  [("properties", VObj [("age", VObj [("type", VStr "number")]);
                        ("name", VObj [("type", VStr "string");
                                       ("description", VStr "a name")])]);
   ("required", VArr [VStr "age"; VStr "name"])].

Definition filter_on (fields : list value) : value :=
  VObj [("type", VStr "filter"); ("fields", VArr fields)].


(** * Properties *)

(** Case split on the first [if] of the goal. *)
Ltac case_if :=
  match goal with |- context [if ?c then _ else _] => destruct c end.

Section Properties.

Variable json_parse : string -> option value.
Variable ollama_chat : value -> option value.
Variable transform_model : string.

Lemma get_defined (v : value) (k : string) :
  v <> VUndef -> v <> VNull -> exists w, get v k = Return w.
Proof.
  destruct v; intros H1 H2; try congruence; simpl;
    repeat match goal with
           | |- context [match ?x with _ => _ end] => destruct x
           end; eauto.
Qed.

Lemma get_return_defined (v : value) (k : string) (w : value) :
  get v k = Return w -> v <> VUndef /\ v <> VNull.
Proof. destruct v; simpl; intros H; split; congruence. Qed.

Lemma get_truthy (v : value) (k : string) :
  truthy v = true -> exists w, get v k = Return w.
Proof. intros H; apply get_defined; intros ->; discriminate. Qed.

(** ** C7 *)

(** C7: a structured-chat request without a model, or whose [messages] is
    missing, not an array or empty, is answered with status 400 and no
    request reaches the completion service (the log is unchanged). *)
Theorem structured_chat_bad_request (body model messages : value) (log : list value) :
  get body "model" = Return model ->
  get body "messages" = Return messages ->
  (truthy model = false \/ match messages with VArr (_ :: _) => False | _ => True end) ->
  exists resp,
    structured_chat json_parse ollama_chat transform_model body log = (log, Return resp)
    /\ status resp = 400%Z.
Proof.
  intros Hm Hms Hcase.
  destruct (get_return_defined _ _ _ Hm) as [H1 H2].
  destruct (get_defined body "response_format" H1 H2) as [rf Hrf].
  destruct (get_defined body "transforms" H1 H2) as [tr Htr].
  destruct (get_defined body "service" H1 H2) as [sv Hsv].
  cbv [structured_chat try_catch bind lift ret].
  rewrite Hm, Hms, Hrf, Htr, Hsv.
  destruct Hcase as [Hf | Hbad].
  - rewrite Hf. simpl. eauto.
  - destruct (truthy model); simpl; [|eauto].
    destruct messages as [| | | | |[|x xs]| |]; try contradiction; simpl; eauto.
Qed.

(** ** Index keys *)

Lemma digit_char_is_digit (n : Z) : is_digit (ascii_of_nat (48 + Z.to_nat (n mod 10))) = true.
Proof.
  assert (H : (0 <= n mod 10 < 10)%Z) by (apply Z.mod_pos_bound; lia).
  assert (Hn : Z.to_nat (n mod 10) < 10) by lia.
  unfold is_digit. rewrite nat_ascii_embedding by lia.
  apply andb_true_intro; split; apply Nat.leb_le; lia.
Qed.

Lemma pos_digits_head (fuel : nat) (n : Z) (acc : string) :
  (exists c r, acc = String c r /\ is_digit c = true) ->
  exists c r, pos_digits fuel n acc = String c r /\ is_digit c = true.
Proof.
  revert n acc; induction fuel as [|f IH]; intros n acc Hacc; simpl; [exact Hacc|].
  destruct (Z.ltb n 10).
  - eexists _, _; split; [reflexivity|apply digit_char_is_digit].
  - apply IH. eexists _, _; split; [reflexivity|apply digit_char_is_digit].
Qed.

Lemma index_string_head (i : nat) :
  exists c r, string_of_Z (Z.of_nat i) = String c r /\ is_digit c = true.
Proof.
  destruct i as [|i]; simpl.
  - exists "0"%char, ""; split; reflexivity.
  - destruct (Pos.size_nat (Pos.of_succ_nat i)) as [|f] eqn:E.
    + destruct (Pos.of_succ_nat i); discriminate.
    + simpl. destruct (Z.ltb _ 10).
      * eexists _, _; split; [reflexivity|apply digit_char_is_digit].
      * apply pos_digits_head. eexists _, _; split; [reflexivity|apply digit_char_is_digit].
Qed.

Lemma index_of_not_index (k : string) (i : nat) (xs : list value) :
  not_index_key k = true -> index_of k i xs = None.
Proof.
  intros Hk; revert i; induction xs as [|x r IH]; intros i; simpl; [reflexivity|].
  destruct (index_string_head i) as [c [t [Ht Hc]]]. rewrite Ht.
  destruct (String.eqb k (String c t)) eqn:E.
  - apply String.eqb_eq in E; subst k. simpl in Hk. rewrite Hc in Hk; discriminate.
  - apply IH.
Qed.

Lemma chars_index_of_not_index (k : string) (s : string) :
  not_index_key k = true -> index_of k 0 (chars s) = None.
Proof. apply index_of_not_index. Qed.

(** ** Augmentation *)

Lemma is_system_obj (m : value) :
  is_system m = Return true ->
  exists ps, m = VObj ps /\ assoc "role" ps = Some (VStr "system").
Proof.
  unfold is_system; destruct m as [| | | | |xs|ps|f]; simpl; try discriminate.
  - rewrite index_of_not_index by reflexivity; simpl; discriminate.
  - rewrite index_of_not_index by reflexivity; simpl; discriminate.
  - destruct (assoc "role" ps) as [r|] eqn:E; simpl; [|discriminate].
    intros H; exists ps; split; [reflexivity|].
    destruct r; simpl in H; try discriminate.
    injection H as H. apply String.eqb_eq in H; subst; exact E.
Qed.

Lemma assoc_obj_set_same (ps : list (string * value)) (k : string) (v : value) :
  assoc k (obj_set ps k v) = Some v.
Proof.
  induction ps as [|[k' w] r IH]; simpl.
  - rewrite String.eqb_refl; reflexivity.
  - destruct (String.eqb k k') eqn:E; simpl.
    + rewrite E; reflexivity.
    + rewrite E; exact IH.
Qed.

Lemma assoc_obj_set_other (ps : list (string * value)) (k k2 : string) (v : value) :
  k2 <> k -> assoc k2 (obj_set ps k v) = assoc k2 ps.
Proof.
  intros Hne; induction ps as [|[k' w] r IH]; simpl.
  - destruct (String.eqb k2 k) eqn:E; [apply String.eqb_eq in E; congruence|reflexivity].
  - destruct (String.eqb k k') eqn:E; simpl.
    + apply String.eqb_eq in E; subst k'.
      destruct (String.eqb k2 k) eqn:E2; [apply String.eqb_eq in E2; congruence|reflexivity].
    + destruct (String.eqb k2 k'); [reflexivity|exact IH].
Qed.

Lemma augment_one_spec (prompt : string) (m1 m2 : value) :
  augment_one prompt m1 = Return m2 -> augmented_pair prompt m1 m2.
Proof.
  unfold augment_one. destruct (is_system m1) as [[|]|e] eqn:Hs; simpl; try discriminate.
  - destruct (is_system_obj _ Hs) as [ps [-> Hrole]].
    unfold append_instruction.
    set (c := match assoc "content" ps with Some w => w | None => VUndef end).
    assert (Hc : get (VObj ps) "content" = Return c)
      by (unfold c; simpl; destruct (assoc "content" ps); reflexivity).
    rewrite Hc; cbn [js_bind].
    destruct (to_string c) as [t|e] eqn:Ht; cbn [js_bind]; [|discriminate].
    intros H; injection H as <-. left. split; [exact Hs|]. split.
    + unfold is_system; simpl.
      rewrite assoc_obj_set_other by discriminate. rewrite Hrole; reflexivity.
    + exists c, t. simpl. rewrite assoc_obj_set_same.
      split; [reflexivity|split; [exact Hc|exact Ht]].
  - intros H; injection H as <-. right; auto.
Qed.

Lemma js_map_forall2 (f : value -> js value) (P : value -> value -> Prop) (l l' : list value) :
  (forall x y, f x = Return y -> P x y) ->
  js_map f l = Return l' -> Forall2 P l l'.
Proof.
  intros Hf; revert l'; induction l as [|x r IH]; simpl; intros l' H.
  - injection H as <-; constructor.
  - destruct (f x) as [y|e] eqn:E; simpl in H; [|discriminate].
    destruct (js_map f r) as [ys|e] eqn:E2; simpl in H; [|discriminate].
    injection H as <-. constructor; auto.
Qed.

Lemma js_some_false (p : value -> js bool) (l : list value) :
  js_some p l = Return false -> forall x, In x l -> p x = Return false.
Proof.
  induction l as [|y r IH]; simpl; intros H x Hin; [contradiction|].
  destruct (p y) as [[|]|e] eqn:E; simpl in H; try discriminate.
  destruct Hin as [<-|Hin]; auto.
Qed.

Lemma js_some_true_map (l l' : list value) :
  Forall2 (fun a b => exists r, is_system a = Return r /\ is_system b = Return r) l l' ->
  js_some is_system l' = js_some is_system l.
Proof.
  induction 1 as [|a b r r' [x [Ha Hb]] _ IH]; simpl; [reflexivity|].
  rewrite Ha, Hb; simpl. destruct x; [reflexivity|exact IH].
Qed.

Lemma js_map_of_forall2 (f : value -> js value) (l : list value) :
  Forall (fun x => exists y, f x = Return y) l ->
  exists l', js_map f l = Return l'.
Proof.
  induction 1 as [|x r [y Hy] _ [l' IH]]; simpl; [eauto|].
  rewrite Hy; simpl; rewrite IH; simpl; eauto.
Qed.

Lemma forall_forall2_combine {A B} (P : A -> Prop) (Q : A -> B -> Prop) l l' :
  Forall P l -> Forall2 Q l l' -> Forall2 (fun a b => P a /\ Q a b) l l'.
Proof.
  intros HP HQ; induction HQ as [|a b r r' Hab _ IH]; constructor.
  - inversion HP; subst; auto.
  - inversion HP; subst; auto.
Qed.

Lemma forall2_forall_r {A B} (R : A -> B -> Prop) (P : B -> Prop) l l' :
  (forall a b, R a b -> P b) -> Forall2 R l l' -> Forall P l'.
Proof. intros H HR; induction HR; constructor; eauto. Qed.

Lemma augment_one_total (prompt : string) (m : value) (b : bool) :
  is_system m = Return b ->
  (b = true -> exists c t, get m "content" = Return c /\ to_string c = Return t) ->
  exists m', augment_one prompt m = Return m'.
Proof.
  intros Hs Hc; unfold augment_one; rewrite Hs; cbn [js_bind]. destruct b.
  - destruct (Hc eq_refl) as [c [t [H1 H2]]].
    unfold append_instruction. rewrite H1; cbn [js_bind]. rewrite H2; cbn [js_bind]. eauto.
  - eauto.
Qed.

(** C9: augmenting a sequence that has a system message a second time
    appends the same instruction block, after a blank line, to the content
    of every system message of the once-augmented sequence, and leaves the
    other messages as they are. *)
Theorem augment_twice_appends (msgs out1 : list value) (schema : value) :
  (exists m, In m msgs /\ is_system m = Return true) ->
  augment_messages msgs schema = Return out1 ->
  exists out2,
    augment_messages out1 schema = Return out2 /\
    Forall2 (fun m1 m2 =>
      (is_system m1 = Return true /\ is_system m2 = Return true /\
       exists c, get m1 "content" = Return (VStr c) /\
                 get m2 "content" =
                   Return (VStr (c ++ nl ++ nl ++ createJsonFormatSystemPrompt schema)))
      \/ (is_system m1 = Return false /\ m2 = m1)) out1 out2.
Proof.
  intros [m [Hin Hm]] H1.
  unfold augment_messages in H1 |- *.
  set (prompt := createJsonFormatSystemPrompt schema) in *.
  destruct (js_some is_system msgs) as [[|]|e] eqn:Hsome; simpl in H1; try discriminate.
  2: { rewrite (js_some_false _ _ Hsome m Hin) in Hm; discriminate. }
  assert (HF : Forall2 (augmented_pair prompt) msgs out1)
    by (eapply js_map_forall2; [apply augment_one_spec|exact H1]).
  assert (Hs1 : js_some is_system out1 = Return true).
  { rewrite js_some_true_map with (l := msgs); [exact Hsome|].
    eapply Forall2_impl; [|exact HF].
    intros a b [[Ha [Hb _]]|[Ha ->]]; eauto. }
  rewrite Hs1; simpl.
  assert (Hstr : Forall (fun m1 => (exists b, is_system m1 = Return b) /\
                                   (is_system m1 = Return true ->
                                    exists t, get m1 "content" = Return (VStr t))) out1).
  { eapply forall2_forall_r; [|exact HF].
    intros a b [[Ha [Hb [c [t [Hc _]]]]]|[Ha ->]]; split; eauto.
    - rewrite Ha; intros; discriminate. }
  assert (Htot : Forall (fun x => exists y, augment_one prompt x = Return y) out1).
  { eapply Forall_impl; [|exact Hstr]. intros x [[b Hb] Hx].
    eapply augment_one_total; [exact Hb|]. intros ->.
    destruct (Hx Hb) as [t Ht]. exists (VStr t), t. split; [exact Ht|reflexivity]. }
  destruct (js_map_of_forall2 _ _ Htot) as [out2 Hout2].
  exists out2. split; [exact Hout2|].
  assert (HF2 : Forall2 (augmented_pair prompt) out1 out2)
    by (eapply js_map_forall2; [apply augment_one_spec|exact Hout2]).
  pose proof (forall_forall2_combine _ _ _ _ Hstr HF2) as HC.
  eapply Forall2_impl; [|exact HC].
  intros a b [[_ Ht] [[Ha [Hb [c [t [Hcb [Hca Hct]]]]]]|[Ha ->]]].
  - left. destruct (Ht Ha) as [t0 Hta]. rewrite Hta in Hca. injection Hca as <-.
    cbn [to_string] in Hct. injection Hct as <-.
    split; [exact Ha|]. split; [exact Hb|]. exists t0. split; [exact Hta|exact Hcb].
  - right; auto.
Qed.

(** ** The validator *)

Lemma type_mismatch_agrees (t : string) (v : value) :
  type_mismatch (VStr t) v = negb (type_agrees t v).
Proof.
  unfold type_mismatch, type_agrees; cbn [is_str].
  destruct (String.eqb t "number") eqn:E1; [apply String.eqb_eq in E1; subst t; destruct v; reflexivity|].
  destruct (String.eqb t "string") eqn:E2; [apply String.eqb_eq in E2; subst t; destruct v; reflexivity|].
  destruct (String.eqb t "boolean") eqn:E3; [apply String.eqb_eq in E3; subst t; destruct v; reflexivity|].
  destruct (String.eqb t "array") eqn:E4; [apply String.eqb_eq in E4; subst t; destruct v; reflexivity|].
  destruct (String.eqb t "object") eqn:E5; [apply String.eqb_eq in E5; subst t; destruct v; reflexivity|].
  reflexivity.
Qed.

Lemma index_of_in (k : string) (i : nat) (xs : list value) (w : value) :
  index_of k i xs = Some w -> In w xs.
Proof.
  revert i; induction xs as [|x r IH]; simpl; intros i H; [discriminate|].
  destruct (String.eqb k _); [injection H as <-; auto|right; eauto].
Qed.

Lemma in_chars (s : string) (w : value) : In w (chars s) -> exists c, w = VStr (String c EmptyString).
Proof.
  unfold chars; intros H; apply in_map_iff in H. destruct H as [c [<- _]]; eauto.
Qed.

Lemma get_type_untyped (w : value) :
  (forall pe, w <> VObj pe) -> truthy w = false \/ get w "type" = Return VUndef.
Proof.
  intros Hw; destruct w as [| | | |s|xs|pe|f]; simpl; auto.
  - right; rewrite index_of_not_index by reflexivity; reflexivity.
  - right; rewrite index_of_not_index by reflexivity; reflexivity.
  - exfalso; exact (Hw pe eq_refl).
Qed.

Lemma entry_of_untyped (ps v : value) :
  truthy ps = false \/ get ps "type" = Return VUndef -> entry_of ps v = Return true.
Proof.
  unfold entry_of; intros [H|H].
  - rewrite H; reflexivity.
  - destruct (truthy ps); [rewrite H|]; reflexivity.
Qed.

Lemma get_prim_untyped (P : value) (k : string) (w : value) :
  (forall ps, P <> VObj ps) -> (forall xs, P <> VArr xs) ->
  get P k = Return w -> forall pe, w <> VObj pe.
Proof.
  intros H1 H2; destruct P as [| | | |s|xs|ps|f]; simpl; intros H pe; try discriminate.
  - injection H as <-; case_if; discriminate.
  - injection H as <-; case_if; discriminate.
  - destruct (String.eqb k "length"); [injection H as <-; discriminate|].
    destruct (index_of k 0 (chars s)) as [w'|] eqn:E.
    + injection H as <-. apply index_of_in, in_chars in E. destruct E as [c ->]; discriminate.
    + injection H as <-; case_if; discriminate.
  - exfalso; exact (H2 xs eq_refl).
  - exfalso; exact (H1 ps eq_refl).
  - injection H as <-; case_if; discriminate.
Qed.

Lemma get_obj (ps : list (string * value)) (k : string) :
  get (VObj ps) k =
  Return (match assoc k ps with
          | Some w => w
          | None => if mem k object_proto_keys then VFun k else VUndef
          end).
Proof. simpl; destruct (assoc k ps); reflexivity. Qed.

Lemma entry_ok_obj (ss : list (string * value)) (k : string) (v : value) :
  (forall xs, assoc "properties" ss <> Some (VArr xs)) ->
  entry_ok (VObj ss) k v = Return (entry_agrees ss (k, v)).
Proof.
  intros Hp. unfold entry_ok, prop_schema, entry_agrees, declared_type; cbn [fst snd].
  rewrite get_obj. cbn [js_bind].
  destruct (assoc "properties" ss) as [P|] eqn:EP; [|reflexivity].
  destruct P as [| |b|n|s|xs|ps|f]; cbn [js_bind].
  1,2: reflexivity.
  5: { rewrite get_obj. cbn [js_bind].
       destruct (assoc k ps) as [w|] eqn:Ek.
       - destruct w as [| | | | | |pe|]; try (apply entry_of_untyped, get_type_untyped; discriminate).
         unfold entry_of; cbn [truthy]. rewrite get_obj. cbn [js_bind].
         destruct (assoc "type" pe) as [t|] eqn:Et; [|reflexivity].
         destruct t as [| | | |t| | |]; cbn [truthy]; try reflexivity;
           try (case_if; reflexivity).
         destruct (String.eqb t "") eqn:Ee; cbn [negb].
         + apply String.eqb_eq in Ee; subst t; reflexivity.
         + rewrite type_mismatch_agrees, negb_involutive; reflexivity.
       - apply entry_of_untyped, get_type_untyped.
         case_if; discriminate. }
  4: exfalso; exact (Hp xs eq_refl).
  all: match goal with
       | |- js_bind (get ?P ?K) _ = _ =>
           destruct (get P K) as [w|e] eqn:Eg; cbn [js_bind];
             [apply entry_of_untyped, get_type_untyped;
              eapply get_prim_untyped; [| |exact Eg]; discriminate
             |destruct (get_defined P K ltac:(discriminate) ltac:(discriminate)) as [w2 Hw2]; rewrite Hw2 in Eg; discriminate]
       end.
Qed.

Lemma check_types_cons (schema : value) (k : string) (v : value) (r : list (string * value)) :
  check_types schema ((k, v) :: r) =
  js_bind (entry_ok schema k v) (fun b => if b then check_types schema r else Return false).
Proof.
  simpl; unfold entry_ok, entry_of.
  destruct (prop_schema schema k) as [ps|e]; simpl; [|reflexivity].
  destruct (truthy ps); simpl; [|reflexivity].
  destruct (get ps "type") as [t|e]; simpl; [|reflexivity].
  destruct (truthy t); simpl; [|reflexivity].
  destruct (type_mismatch t v); reflexivity.
Qed.

Lemma check_types_obj (ss ds : list (string * value)) :
  (forall xs, assoc "properties" ss <> Some (VArr xs)) ->
  check_types (VObj ss) ds = Return (forallb (entry_agrees ss) ds).
Proof.
  intros Hp; induction ds as [|[k v] r IH]; [reflexivity|].
  rewrite check_types_cons, entry_ok_obj by exact Hp. simpl.
  destruct (entry_agrees ss (k, v)); simpl; [exact IH|reflexivity].
Qed.

Lemma check_required_true (keys : list value) (ds : list (string * value)) :
  check_required keys (VObj ds) = Return true <->
  (forall r, In r keys -> exists k, to_string r = Return k /\ in_object k ds = true).
Proof.
  induction keys as [|r rs IH]; cbn [check_required].
  - split; [intros _ r []|reflexivity].
  - unfold js_in_op. destruct (to_string r) as [k|e] eqn:Ek; cbn [js_bind js_in].
    + destruct (match assoc k ds with Some _ => true | None => mem k object_proto_keys end)
        eqn:Ep.
      * rewrite IH. split.
        -- intros H r' [<-|Hin]; [|auto]. exists k. split; [exact Ek|exact Ep].
        -- intros H r' Hin. apply H; right; exact Hin.
      * split; [discriminate|]. intros H.
        destruct (H r (or_introl eq_refl)) as [k' [Hk' Hin]].
        rewrite Ek in Hk'; injection Hk' as <-. unfold in_object in Hin. congruence.
    + split; [discriminate|]. intros H.
      destruct (H r (or_introl eq_refl)) as [k' [Hk' _]]. congruence.
Qed.

Lemma check_required_names (names : list string) (ds : list (string * value)) :
  check_required (map VStr names) (VObj ds) = Return (forallb (fun k => in_object k ds) names).
Proof.
  induction names as [|k ks IH]; cbn [map check_required forallb]; [reflexivity|].
  unfold js_in_op; cbn [to_string js_bind js_in]. unfold in_object.
  destruct (match assoc k ds with Some _ => true | None => mem k object_proto_keys end);
    cbn [andb]; [exact IH|reflexivity].
Qed.

Lemma required_iterate (schema : value) (keys : list value) :
  required_list schema = Some keys ->
  exists r, get schema "required" = Return r /\
            iterate (if truthy r then r else VArr []) = Return keys.
Proof.
  unfold required_list. destruct (get schema "required") as [r|e]; [|discriminate].
  intros H; exists r; split; [reflexivity|].
  destruct (truthy r); [destruct r; try discriminate; injection H as <-; reflexivity|].
  injection H as <-; reflexivity.
Qed.

(** C6: the presence test of the validator is JavaScript's [in], which
    also finds members inherited from [Object.prototype]: the empty
    document, which has no own key, passes a schema requiring [toString],
    where an own key [toString] is required. *)
Theorem validate_accepts_inherited_key :
  validateAgainstSchema (VObj []) (VObj [("required", VArr [VStr "toString"])]) = true
  /\ assoc "toString" [] = None.
Proof. split; reflexivity. Qed.

(** X14: on a JSON object document and an object schema whose [required]
    entry is absent or a sequence and whose [properties] entry is not an
    array, the validator returns [true] exactly when (a) every required
    entry converts to a property key found by [in] on the document (an own
    key or a member of [Object.prototype]) and (b) every own entry of the
    document whose property schema declares one of
    number/string/boolean/array/object has a value of that runtime type
    (any other declared type, [integer] included, imposes nothing; keys
    without a property schema are free).  It never raises: on a [null]
    document, for instance, it returns [false]. *)
Theorem validate_object_iff (ds ss : list (string * value)) (keys : list value) :
  required_list (VObj ss) = Some keys ->
  (forall xs, assoc "properties" ss <> Some (VArr xs)) ->
  (validateAgainstSchema (VObj ds) (VObj ss) = true <->
   (forall r, In r keys -> exists k, to_string r = Return k /\ in_object k ds = true) /\
   (forall k v t, In (k, v) ds -> declared_type ss k = Some t -> type_agrees t v = true))
  /\ (forall schema, validateAgainstSchema VNull schema = false).
Proof.
  intros Hreq Hp. split.
  - destruct (required_iterate _ _ Hreq) as [r [Hr Hit]].
    unfold validateAgainstSchema, validate_body.
    rewrite Hr; cbn [js_bind]; rewrite Hit; cbn [js_bind].
    pose proof (check_required_true keys ds) as Hc.
    destruct (check_required keys (VObj ds)) as [[|]|e]; cbn [js_bind].
    + cbn [object_entries js_bind]. rewrite check_types_obj by exact Hp.
      rewrite forallb_forall. split.
      * intros Hall. split; [apply Hc; reflexivity|].
        intros k v t Hin Ht. specialize (Hall _ Hin). unfold entry_agrees in Hall.
        simpl in Hall. rewrite Ht in Hall. exact Hall.
      * intros [_ Hb] [k v] Hin. unfold entry_agrees; simpl.
        destruct (declared_type ss k) as [t|] eqn:Ht; [eapply Hb; eauto|reflexivity].
    + split; [discriminate|]. intros [Ha _]. apply Hc in Ha. discriminate.
    + split; [discriminate|]. intros [Ha _]. apply Hc in Ha. discriminate.
  - intros schema. unfold validateAgainstSchema, validate_body.
    destruct (get schema "required") as [r|e]; simpl; [|reflexivity].
    destruct (iterate (if truthy r then r else VArr [])) as [[|k ks]|e]; simpl; reflexivity.
Qed.

(** ** C2 *)

Lemma in_object_assign_same (k : string) (acc : list (string * value)) (v : value) :
  in_object k (assign acc k v) = true.
Proof.
  unfold in_object, assign. destruct (String.eqb k "__proto__") eqn:E.
  - apply String.eqb_eq in E; subst k. destruct (assoc "__proto__" acc); reflexivity.
  - rewrite assoc_obj_set_same; reflexivity.
Qed.

Lemma in_object_assign_mono (k k' : string) (acc : list (string * value)) (v : value) :
  in_object k acc = true -> in_object k (assign acc k' v) = true.
Proof.
  unfold assign. destruct (String.eqb k' "__proto__"); [auto|].
  unfold in_object. destruct (String.eqb k k') eqn:E.
  - apply String.eqb_eq in E; subst k'. rewrite assoc_obj_set_same; reflexivity.
  - rewrite assoc_obj_set_other; [auto|].
    intros ->. rewrite String.eqb_refl in E; discriminate.
Qed.

Lemma minimal_value_total (k : string) (propSchema : value) :
  truthy propSchema = true -> exists v, minimal_value (VStr k) propSchema = Return v.
Proof.
  intros H. unfold minimal_value.
  destruct (get_truthy propSchema "type" H) as [t Ht]; rewrite Ht; cbn [js_bind].
  destruct (get_truthy propSchema "description" H) as [d Hd].
  destruct (is_str t "string").
  - rewrite Hd; cbn [js_bind]. destruct (truthy d); cbn [to_string js_bind]; eauto.
  - repeat case_if; eauto.
Qed.

Lemma fill_required_spec (ss : list (string * value)) (props : value)
    (names : list string) (acc : list (string * value)) :
  get (VObj ss) "properties" = Return props -> truthy props = true ->
  exists res,
    fill_required (VObj ss) (map VStr names) acc = Return res
    /\ (forall k, in_object k acc = true -> in_object k res = true)
    /\ (forall k, In k names ->
          (exists w, get props k = Return w /\ truthy w = true) -> in_object k res = true)
    /\ (forall k w, get props k = Return w -> truthy w = false ->
          assoc k acc = None -> assoc k res = None).
Proof.
  intros Hp Ht. revert acc.
  induction names as [|k0 rs IH]; intros acc.
  - exists acc. split; [reflexivity|]. split; [auto|]. split; [intros k []|auto].
  - cbn [map fill_required]. rewrite Hp; cbn [js_bind to_string].
    destruct (get_truthy props k0 Ht) as [w0 Hw0]; rewrite Hw0; cbn [js_bind].
    destruct (truthy w0) eqn:Tw.
    + destruct (minimal_value_total k0 w0 Tw) as [v Hv]; rewrite Hv; cbn [js_bind].
      destruct (IH (assign acc k0 v)) as [res [H1 [H2 [H3 H4]]]].
      exists res. split; [exact H1|]. split; [|split].
      * intros k Hk; apply H2; apply in_object_assign_mono; exact Hk.
      * intros k [<-|Hin] Hw'; [apply H2; apply in_object_assign_same|].
        apply H3; assumption.
      * intros k w Hw Tw' Hacc. apply (H4 k w Hw Tw'). unfold assign.
        destruct (String.eqb k0 "__proto__"); [exact Hacc|].
        rewrite assoc_obj_set_other; [exact Hacc|].
        intros ->. rewrite Hw0 in Hw; injection Hw as <-; congruence.
    + destruct (IH acc) as [res [H1 [H2 [H3 H4]]]].
      exists res. split; [exact H1|]. split; [exact H2|]. split.
      * intros k [<-|Hin] [w' [Hw' Tw']].
        -- rewrite Hw0 in Hw'; injection Hw' as <-; congruence.
        -- apply H3; eauto.
      * exact H4.
Qed.
(** C2 (counterexample): a required key without a property schema is left
    out of the synthesized object, and a schema without [properties] gives
    the error object; in both cases the validator's presence check fails. *)
Lemma createMinimal_missing_key_counterexample :
  createMinimalValidObject (VObj [("properties", VObj []); ("required", VArr [VStr "a"])])
    = Return (VObj [])
  /\ validateAgainstSchema (VObj [])
       (VObj [("properties", VObj []); ("required", VArr [VStr "a"])]) = false
  /\ createMinimalValidObject (VObj [("required", VArr [VStr "a"])]) = Return no_json_error
  /\ validateAgainstSchema no_json_error (VObj [("required", VArr [VStr "a"])]) = false.
Proof. repeat split; vm_compute; reflexivity. Qed.

(** C2 (amended): take an object schema whose [required] entry is absent
    or a sequence of property names, none of them [__proto__] (assigning
    [null] to [result.__proto__] would remove the prototype of the result,
    which the model does not represent).  When [schema.properties] is falsy
    the result is the error object.  Otherwise [createMinimalValidObject]
    returns an object on which every required key whose property schema
    ([schema.properties[key]]) is truthy passes the validator's presence
    test ([key in result]), and in which a required key whose property
    schema is falsy is no own key. *)
Theorem createMinimal_required_present (ss : list (string * value)) (names : list string)
    (props : value) :
  required_list (VObj ss) = Some (map VStr names) ->
  ~ In "__proto__" names ->
  get (VObj ss) "properties" = Return props ->
  (truthy props = false -> createMinimalValidObject (VObj ss) = Return no_json_error)
  /\ (truthy props = true ->
      exists res,
        createMinimalValidObject (VObj ss) = Return (VObj res)
        /\ (forall k, In k names ->
              (exists w, get props k = Return w /\ truthy w = true) -> in_object k res = true)
        /\ (forall k w, In k names -> get props k = Return w -> truthy w = false ->
              assoc k res = None)).
Proof.
  intros Hreq _ Hp. unfold createMinimalValidObject. cbn [truthy negb].
  rewrite Hp; cbn [js_bind]. split.
  - intros Hf; rewrite Hf; reflexivity.
  - intros Ht; rewrite Ht; cbn [negb].
    destruct (required_iterate _ _ Hreq) as [rq [Hr Hit]].
    rewrite Hr; cbn [js_bind]; rewrite Hit; cbn [js_bind].
    destruct (fill_required_spec ss props names [] Hp Ht) as [res [H1 [_ [H3 H4]]]].
    rewrite H1; cbn [js_bind]. exists res. split; [reflexivity|]. split; [exact H3|].
    intros k w _ Hw Tw. exact (H4 k w Hw Tw eq_refl).
Qed.

(** ** C4 *)

Lemma createMinimal_total (schema : value) :
  schema_shape_ok schema -> exists v, createMinimalValidObject schema = Return v.
Proof.
  unfold createMinimalValidObject. intros [Hf | [names Hreq]].
  - rewrite Hf; cbn [negb]; eauto.
  - destruct (truthy schema) eqn:Ts; cbn [negb]; [|eauto].
    destruct (get_truthy schema "properties" Ts) as [props Hp]; rewrite Hp; cbn [js_bind].
    destruct (truthy props) eqn:Tp; cbn [negb]; [|eauto].
    destruct (required_iterate _ _ Hreq) as [rq [Hr Hit]].
    rewrite Hr; cbn [js_bind]; rewrite Hit; cbn [js_bind].
    assert (Hfill : forall ks acc, exists res, fill_required schema (map VStr ks) acc = Return res).
    { intros ks; induction ks as [|r rs IH]; intros acc.
      - exists acc; reflexivity.
      - cbn [map fill_required]. rewrite Hp; cbn [js_bind to_string].
        destruct (get_truthy props r Tp) as [w Hw]; rewrite Hw; cbn [js_bind].
        destruct (truthy w) eqn:Tw; [|apply IH].
        destruct (minimal_value_total r w Tw) as [v Hv]; rewrite Hv; cbn [js_bind].
        apply IH. }
    destruct (Hfill names []) as [res Hres]; rewrite Hres; cbn [js_bind]; eauto.
Qed.

(** [generateJsonFromText] converts the text, then sends one request and
    falls back on any fault. *)
Lemma generate_fallback (text schema : value) (log : list value) :
  schema_shape_ok schema ->
  exists v,
    match to_string text with
    | Return t =>
        generateJsonFromText json_parse ollama_chat transform_model text schema log
          = (app log [regeneration_body transform_model t schema], Return v)
        /\ ((ollama_chat (regeneration_body transform_model t schema) = None
             \/ exists data e,
                  ollama_chat (regeneration_body transform_model t schema) = Some data
                  /\ completion_result json_parse data = Throw e) ->
            createMinimalValidObject schema = Return v)
    | Throw _ =>
        generateJsonFromText json_parse ollama_chat transform_model text schema log
          = (log, Return v)
        /\ createMinimalValidObject schema = Return v
    end.
Proof.
  intros Hs. destruct (createMinimal_total schema Hs) as [fb Hfb].
  unfold completion_result, generateJsonFromText, regeneration_request, try_catch, bind,
    post_chat, lift.
  destruct (to_string text) as [t|e0]; cbn [js_bind].
  2: { exists fb. rewrite Hfb. split; reflexivity. }
  destruct (ollama_chat (regeneration_body transform_model t schema)) as [data|] eqn:Ho.
  - destruct (get data "message") as [m|e] eqn:Hm; cbn [js_bind].
    + destruct (get m "content") as [c|e] eqn:Hc; cbn [js_bind].
      * destruct (parse_completion json_parse c) as [v|e] eqn:Hpc.
        -- exists v. split; [reflexivity|].
           intros [H|[d [e [Hd He]]]]; [discriminate|].
           injection Hd as <-. rewrite Hm in He; cbn [js_bind] in He.
           rewrite Hc in He; cbn [js_bind] in He. congruence.
        -- exists fb. rewrite Hfb. split; [reflexivity|]. auto.
      * exists fb. rewrite Hfb. split; [reflexivity|]. auto.
    + exists fb. rewrite Hfb. split; [reflexivity|]. auto.
  - exists fb. rewrite Hfb. split; [reflexivity|]. auto.
Qed.

(** C4: for a schema of the data model (absent, or whose [required] entry
    is absent or a sequence of property names), [generateJsonFromText]
    never throws.  When [`${text}`] converts the text to [t], it sends one
    request to the completion service, and when that request fails or the
    parsing of its answer raises, its result is
    [createMinimalValidObject schema]; when the conversion raises, no
    request is sent and the result is [createMinimalValidObject schema]. *)
Theorem generate_never_throws (text schema : value) (log : list value) :
  schema_shape_ok schema ->
  exists v,
    match to_string text with
    | Return t =>
        generateJsonFromText json_parse ollama_chat transform_model text schema log
          = (app log [regeneration_body transform_model t schema], Return v)
        /\ ((ollama_chat (regeneration_body transform_model t schema) = None
             \/ exists data e,
                  ollama_chat (regeneration_body transform_model t schema) = Some data
                  /\ completion_result json_parse data = Throw e) ->
            createMinimalValidObject schema = Return v)
    | Throw _ =>
        generateJsonFromText json_parse ollama_chat transform_model text schema log
          = (log, Return v)
        /\ createMinimalValidObject schema = Return v
    end.
Proof. apply generate_fallback. Qed.


(** ** C3 *)

Lemma extract_first_success (s : string) (schema : value) (log : list value) :
  extractJsonFromText json_parse ollama_chat transform_model (VStr s) schema log =
  match first_success json_parse (extraction_candidates s) with
  | Some v => (log, Return v)
  | None =>
      (if truthy schema then generateJsonFromText json_parse ollama_chat transform_model (VStr s) schema
       else raise extraction_error) log
  end.
Proof.
  unfold extractJsonFromText, extraction_candidates. cbn [to_string app first_success].
  destruct (json_parse s) as [v|]; [reflexivity|].
  destruct (fence_match s) as [m|]; cbn [app first_success].
  - destruct (json_parse (match m1 m with Some g => g | None => "undefined" end)) as [v|];
      [reflexivity|].
    destruct (brace_match s) as [b|]; cbn [first_success]; [|reflexivity].
    destruct (json_parse (m0 b)); reflexivity.
  - destruct (brace_match s) as [b|]; cbn [first_success]; [|reflexivity].
    destruct (json_parse (m0 b)); reflexivity.
Qed.

Lemma extract_non_string (text schema : value) (log : list value) :
  (forall t, text <> VStr t) ->
  match to_string text with Return t => json_parse t = None | Throw _ => True end ->
  extractJsonFromText json_parse ollama_chat transform_model text schema log
    = (log, Throw TypeError).
Proof.
  intros Hns Hp. unfold extractJsonFromText.
  destruct (to_string text) as [t|e]; [rewrite Hp|];
    (destruct text; try reflexivity; exfalso; eapply Hns; reflexivity).
Qed.

(** C3 (counterexample): when no schema is given and nothing parses, the
    error thrown is the same for every text (the text is not carried by
    it); and a non-string text makes [text.match] throw a TypeError even
    when a schema is supplied. *)
Lemma extract_error_without_text_counterexample :
  extractJsonFromText JSON_parse (fun _ => None) "m" (VStr "hello") VUndef []
    = ([], Throw extraction_error)
  /\ extractJsonFromText JSON_parse (fun _ => None) "m" (VStr "bye") VUndef []
    = ([], Throw extraction_error)
  /\ extractJsonFromText JSON_parse (fun _ => None) "m" (VObj [])
       (VObj [("properties", VObj [])]) [] = ([], Throw TypeError).
Proof. repeat split; vm_compute; reflexivity. Qed.

(** C3 (amended): on a text [s], [extractJsonFromText] returns the first of
    the whole text, the first fenced block's content and the span from the
    first [{] to the last [}] that parses, without contacting the
    completion service; when none parses it regenerates if the schema is
    truthy (and then does not throw, for a schema of the data model) and
    otherwise throws the fixed [extraction_error].  A text that is not a
    string, and whose conversion [String(text)] does not parse (or
    raises), makes [text.match] throw a TypeError, schema or not. *)
Theorem extract_strategy_order (s : string) (schema : value) (log : list value) :
  schema_shape_ok schema ->
  (forall v, first_success json_parse (extraction_candidates s) = Some v ->
     extractJsonFromText json_parse ollama_chat transform_model (VStr s) schema log
       = (log, Return v))
  /\ (first_success json_parse (extraction_candidates s) = None -> truthy schema = true ->
      extractJsonFromText json_parse ollama_chat transform_model (VStr s) schema log
        = generateJsonFromText json_parse ollama_chat transform_model (VStr s) schema log
      /\ exists log' v,
           extractJsonFromText json_parse ollama_chat transform_model (VStr s) schema log
             = (log', Return v))
  /\ (first_success json_parse (extraction_candidates s) = None -> truthy schema = false ->
      extractJsonFromText json_parse ollama_chat transform_model (VStr s) schema log
        = (log, Throw extraction_error))
  /\ (forall text, (forall t, text <> VStr t) ->
      match to_string text with Return t => json_parse t = None | Throw _ => True end ->
      extractJsonFromText json_parse ollama_chat transform_model text schema log
        = (log, Throw TypeError)).
Proof.
  intros Hs. rewrite !extract_first_success.
  split; [|split; [|split]].
  - intros v ->; reflexivity.
  - intros -> ->. split; [reflexivity|].
    destruct (generate_fallback (VStr s) schema log Hs) as [v Hv].
    cbn [to_string] in Hv. destruct Hv as [Hv _].
    rewrite Hv; eauto.
  - intros -> ->. reflexivity.
  - intros text. apply extract_non_string.
Qed.

(** ** C1 *)







(** ** C10 *)

Lemma falsy_get (v : value) (k : string) :
  truthy v = false -> k = "message" \/ k = "content" ->
  get v k = Throw TypeError \/ get v k = Return VUndef.
Proof.
  intros T Hk. destruct v as [| |b|z|s| | |]; cbn [truthy] in T; try discriminate.
  - left; reflexivity.
  - left; reflexivity.
  - subst b. right. destruct Hk as [-> | ->]; reflexivity.
  - destruct (Z.eqb_spec z 0) as [->|]; [|discriminate].
    right. destruct Hk as [-> | ->]; reflexivity.
  - destruct (String.eqb_spec s "") as [->|]; [|discriminate].
    right. destruct Hk as [-> | ->]; reflexivity.
Qed.

Lemma content_holder_truthy (v : value) (c : string) :
  get v "content" = Return (VStr c) -> truthy v = true.
Proof.
  intros H. destruct (truthy v) eqn:T; [reflexivity|].
  destruct (falsy_get v "content" T (or_intror eq_refl)) as [E|E]; congruence.
Qed.

Lemma message_holder_truthy (data msg : value) (c : string) :
  get data "message" = Return msg -> get msg "content" = Return (VStr c) -> truthy data = true.
Proof.
  intros H Hc. destruct (truthy data) eqn:T; [reflexivity|].
  destruct (falsy_get data "message" T (or_introl eq_refl)) as [E|E]; [congruence|].
  rewrite E in H. injection H as <-. discriminate.
Qed.

(** C10 (counterexample): an empty answer text is rejected as an invalid
    reply (status 500) before any transform runs; and a filter with an
    empty field list placed before the non-empty one turns the text into
    an empty object, so the request succeeds with status 200. *)
Lemma filter_transform_counterexample :
  let msgs := VArr [VObj [("role", VStr "user"); ("content", VStr "hi")]] in
  let chat := fun (c : string) (_ : value) =>
    Some (VObj [("message", VObj [("content", VStr c)])]) in
  let filter := fun fields => VObj [("type", VStr "filter"); ("fields", VArr fields)] in
  snd (structured_chat JSON_parse (chat EmptyString) "t"
         (VObj [("model", VStr "m"); ("messages", msgs);
                ("transforms", VArr [filter [VStr "a"]])]) [])
    = Return (reply 500 [("error", VStr "Respuesta inválida de Ollama")])
  /\ snd (structured_chat JSON_parse (chat "hello") "t"
         (VObj [("model", VStr "m"); ("messages", msgs);
                ("transforms", VArr [filter []; filter [VStr "a"]])]) [])
    = Return (reply 200 [("model", VStr "m"); ("result", VObj []);
                         ("service", VStr "ollama-middleware")]).
Proof. split; vm_compute; reflexivity. Qed.

(** C10 (amended): take a request with a model whose conversion to text
    does not raise, a non-empty message sequence, no [json_schema]
    requested, and a first transform that is a filter with a non-empty
    field sequence.  When the completion service answers the request with
    a text [c], the route answers with status 500: for a non-empty [c] the
    [in] test on the text throws a TypeError caught by the route's
    handler, and an empty [c] is rejected as an invalid reply. *)
Theorem structured_chat_filter_on_text (body model m0 rf t f options : value) (mt : string)
    (ms ts fs : list value) (log : list value) :
  get body "model" = Return model -> truthy model = true -> to_string model = Return mt ->
  get body "messages" = Return (VArr (m0 :: ms)) ->
  get body "response_format" = Return rf -> json_schema_requested rf = Return false ->
  get body "options" = Return options ->
  get body "transforms" = Return (VArr (t :: ts)) ->
  get t "type" = Return (VStr "filter") -> get t "fields" = Return (VArr (f :: fs)) ->
  forall data msg c,
    ollama_chat (chat_request model (VArr (m0 :: ms)) options false) = Some data ->
    get data "message" = Return msg ->
    get msg "content" = Return (VStr c) ->
    structured_chat json_parse ollama_chat transform_model body log
      = (app log [chat_request model (VArr (m0 :: ms)) options false],
         Return (if String.eqb c ""
                 then reply 500 [("error", VStr "Respuesta inválida de Ollama")]
                 else reply 500 [("error", VStr "Error del servidor");
                                 ("message", VStr "TypeError")])).
Proof.
  intros Hm Tm Hmt Hms Hrf Hreq Hopts Htr Hty Hf data msg c Ho Hmsg Hc.
  destruct (get_return_defined _ _ _ Hm) as [H1 H2].
  destruct (get_defined body "service" H1 H2) as [sv Hsv].
  cbv [structured_chat try_catch bind lift ret].
  rewrite Hm, Hms, Hrf, Htr, Hsv, Tm. cbn [negb]. rewrite Hreq. cbn [andb].
  rewrite Hmt, Hopts.
  unfold chat_request in Ho. unfold post_chat. rewrite Ho.
  assert (Td : truthy data = true) by (eapply message_holder_truthy; eauto).
  assert (Tmsg : truthy msg = true) by (eapply content_holder_truthy; eauto).
  unfold invalid_reply. rewrite Td; cbn [negb]. rewrite Hmsg; cbn [js_bind].
  rewrite Tmsg; cbn [negb]. rewrite Hc; cbn [js_bind truthy].
  destruct (String.eqb c "") eqn:E; cbn [negb]; [reflexivity|].
  cbn [apply_transforms js_bind].
  rewrite Hty. cbn [js_bind]. replace (is_str (VStr "filter") "filter") with true by reflexivity. rewrite Hf; cbn [js_bind truthy iterate].
  cbn [filter_fields truthy]. rewrite E. reflexivity.
Qed.

(** ** C5 *)

(** C5: when the answer to the regeneration request has a fenced block
    whose content does not parse, [generateJsonFromText] falls back to the
    synthesized object: the span from [{] to [}], which parses, is not
    tried, although [extractJsonFromText] returns it on the same text. *)
Lemma regenerate_skips_brace_span :
  let c := "```" ++ nl ++ "not json" ++ nl ++ "``` {" ++ quote "a" ++ ":1}" in
  let chat := fun _ : value => Some (VObj [("message", VObj [("content", VStr c)])]) in
  let schema := VObj [("properties", VObj [("a", VObj [("type", VStr "number")])]);
                      ("required", VArr [VStr "a"])] in
  fence_match c <> None
  /\ match brace_match c with Some m => JSON_parse (m0 m) | None => None end
       = Some (VObj [("a", VNum 1)])
  /\ snd (generateJsonFromText JSON_parse chat "t" (VStr "t") schema [])
       = Return (VObj [("a", VNum 0)])
  /\ snd (extractJsonFromText JSON_parse chat "t" (VStr c) schema [])
       = Return (VObj [("a", VNum 1)]).
Proof.
  split; [vm_compute; discriminate|].
  repeat split; vm_compute; reflexivity.
Qed.

(** ** C8 *)

Import Heap.










End Properties.

(** * Instances of the properties on concrete inputs *)

Lemma structured_chat_bad_request_witness :
  exists resp,
    structured_chat JSON_parse no_service "t"
      (VObj [("model", VStr "m"); ("messages", VArr [])]) [] = ([], Return resp)
    /\ status resp = 400%Z.
Proof.
  apply (structured_chat_bad_request JSON_parse no_service "t" _ (VStr "m") (VArr []));
    [reflexivity|reflexivity|right; exact I].
Defined.

Lemma augment_twice_appends_witness :
  exists out2,
    augment_messages
      (match augment_messages [system_msg; user_msg] (VObj []) with
       | Return o => o | Throw _ => [] end) (VObj []) = Return out2 /\
    Forall2 (fun m1 m2 =>
      (is_system m1 = Return true /\ is_system m2 = Return true /\
       exists c, get m1 "content" = Return (VStr c) /\
                 get m2 "content" =
                   Return (VStr (c ++ nl ++ nl ++ createJsonFormatSystemPrompt (VObj []))))
      \/ (is_system m1 = Return false /\ m2 = m1))
      (match augment_messages [system_msg; user_msg] (VObj []) with
       | Return o => o | Throw _ => [] end) out2.
Proof.
  apply (augment_twice_appends [system_msg; user_msg]
           (match augment_messages [system_msg; user_msg] (VObj []) with
            | Return o => o | Throw _ => [] end) (VObj [])).
  - exists system_msg. split; [left; reflexivity|reflexivity].
  - vm_compute. reflexivity.
Defined.

Lemma validate_object_iff_witness :
  (validateAgainstSchema (VObj [("a", VNum 1)]) number_schema = true <->
   (forall r, In r [VStr "a"] ->
      exists k, to_string r = Return k /\ in_object k [("a", VNum 1)] = true) /\
   (forall k v t, In (k, v) [("a", VNum 1)] ->
      declared_type [("properties", VObj [("a", VObj [("type", VStr "number")])]);
                     ("required", VArr [VStr "a"])] k = Some t ->
      type_agrees t v = true))
  /\ (forall schema, validateAgainstSchema VNull schema = false).
Proof.
  apply validate_object_iff.
  - reflexivity.
  - intros xs H. vm_compute in H. discriminate H.
Defined.

Lemma createMinimal_required_present_witness :
  let props := VObj [("a", VObj [("type", VStr "number")])] in
  (truthy props = false -> createMinimalValidObject number_schema = Return no_json_error)
  /\ (truthy props = true ->
      exists res,
        createMinimalValidObject number_schema = Return (VObj res)
        /\ (forall k, In k ["a"] ->
              (exists w, get props k = Return w /\ truthy w = true) -> in_object k res = true)
        /\ (forall k w, In k ["a"] -> get props k = Return w -> truthy w = false ->
              assoc k res = None)).
Proof.
  intros props.
  apply (createMinimal_required_present
           [("properties", props); ("required", VArr [VStr "a"])] ["a"] props).
  - reflexivity.
  - intros [H|[]]. discriminate H.
  - reflexivity.
Defined.

Lemma generate_never_throws_witness :
  exists v,
    match to_string (VStr "hi") with
    | Return t =>
        generateJsonFromText JSON_parse no_service "t" (VStr "hi") number_schema []
          = ([regeneration_body "t" t number_schema], Return v)
        /\ ((no_service (regeneration_body "t" t number_schema) = None
             \/ exists data e,
                  no_service (regeneration_body "t" t number_schema) = Some data
                  /\ completion_result JSON_parse data = Throw e) ->
            createMinimalValidObject number_schema = Return v)
    | Throw _ =>
        generateJsonFromText JSON_parse no_service "t" (VStr "hi") number_schema []
          = ([], Return v)
        /\ createMinimalValidObject number_schema = Return v
    end.
Proof.
  apply generate_never_throws. right. exists ["a"]. reflexivity.
Defined.

Lemma extract_strategy_order_witness :
  let s := "answer: {" ++ quote "a" ++ ":1}" in
  (forall v, first_success JSON_parse (extraction_candidates s) = Some v ->
     extractJsonFromText JSON_parse no_service "t" (VStr s) number_schema []
       = ([], Return v))
  /\ (first_success JSON_parse (extraction_candidates s) = None ->
      truthy number_schema = true ->
      extractJsonFromText JSON_parse no_service "t" (VStr s) number_schema []
        = generateJsonFromText JSON_parse no_service "t" (VStr s) number_schema []
      /\ exists log' v,
           extractJsonFromText JSON_parse no_service "t" (VStr s) number_schema []
             = (log', Return v))
  /\ (first_success JSON_parse (extraction_candidates s) = None ->
      truthy number_schema = false ->
      extractJsonFromText JSON_parse no_service "t" (VStr s) number_schema []
        = ([], Throw extraction_error))
  /\ (forall text, (forall t, text <> VStr t) ->
      match to_string text with Return t => JSON_parse t = None | Throw _ => True end ->
      extractJsonFromText JSON_parse no_service "t" text number_schema []
        = ([], Throw TypeError)).
Proof.
  intros s. apply extract_strategy_order. right. exists ["a"]. reflexivity.
Defined.


Lemma structured_chat_filter_on_text_witness :
  let filter := VObj [("type", VStr "filter"); ("fields", VArr [VStr "a"])] in
  let body := VObj [("model", VStr "m"); ("messages", VArr [user_msg]);
                    ("transforms", VArr [filter])] in
  let msg := VObj [("content", VStr "hello")] in
  let chat := fun _ : value => Some (VObj [("message", msg)]) in
  structured_chat JSON_parse chat "t" body []
    = (app [] [chat_request (VStr "m") (VArr [user_msg]) VUndef false],
       Return (if String.eqb "hello" EmptyString
               then reply 500 [("error", VStr "Respuesta inválida de Ollama")]
               else reply 500 [("error", VStr "Error del servidor");
                               ("message", VStr "TypeError")])).
Proof.
  intros filter body msg chat.
  apply (structured_chat_filter_on_text JSON_parse chat "t" body (VStr "m") user_msg VUndef
           filter (VStr "a") VUndef "m" [] [] [] [] ltac:(reflexivity) ltac:(reflexivity)
           ltac:(reflexivity) ltac:(reflexivity) ltac:(reflexivity) ltac:(reflexivity)
           ltac:(reflexivity) ltac:(reflexivity) ltac:(reflexivity) ltac:(reflexivity)
           (VObj [("message", msg)]) msg "hello"); reflexivity.
Defined.


(** * Further properties of the code *)

Section Extras.

Variable json_parse : string -> option value.
Variable ollama_chat : value -> option value.
Variable transform_model : string.
Variable default_model : string.

(** ** [createMinimalValidObject] *)

Lemma forall_obj_set (P : string * value -> Prop) (ps : list (string * value))
    (k : string) (v : value) :
  Forall P ps -> P (k, v) -> Forall P (obj_set ps k v).
Proof.
  induction ps as [|[k' w] r IH]; cbn [obj_set]; intros H Hkv; [constructor; auto|].
  inversion H as [|x l Hx Hr]; subst.
  destruct (String.eqb_spec k k') as [->|_]; constructor; auto.
Qed.

Lemma forall_assign (P : string * value -> Prop) (ps : list (string * value))
    (k : string) (v : value) :
  Forall P ps -> P (k, v) -> Forall P (assign ps k v).
Proof.
  unfold assign. destruct (String.eqb k "__proto__"); [auto|apply forall_obj_set].
Qed.

Lemma in_obj_set (ps : list (string * value)) (k k' : string) (v v' : value) :
  In (k, v) (obj_set ps k' v') -> In (k, v) ps \/ (k = k' /\ v = v').
Proof.
  induction ps as [|[k2 w] r IH]; cbn [obj_set].
  - intros [H|[]]. injection H as -> ->. right; auto.
  - destruct (String.eqb_spec k' k2) as [->|_]; intros [H|H].
    + injection H as -> ->. right; auto.
    + left; right; exact H.
    + left; left; exact H.
    + destruct (IH H) as [H'|H']; [left; right; exact H'|right; exact H'].
Qed.

Lemma in_obj_set_keep (ps : list (string * value)) (k k' : string) (v v' : value) :
  In (k, v) ps -> (k' = k -> v' = v) -> In (k, v) (obj_set ps k' v').
Proof.
  intros Hin Heq. induction ps as [|[k2 w] r IH]; cbn [obj_set]; [destruct Hin|].
  destruct (String.eqb_spec k' k2) as [->|Hne].
  - destruct Hin as [H|H].
    + injection H as -> ->. rewrite (Heq eq_refl). left; reflexivity.
    + right; exact H.
  - destruct Hin as [H|H]; [left; exact H|right; apply IH; exact H].
Qed.

Lemma in_obj_set_same (ps : list (string * value)) (k : string) (v : value) :
  In (k, v) (obj_set ps k v).
Proof.
  induction ps as [|[k2 w] r IH]; cbn [obj_set]; [left; reflexivity|].
  destruct (String.eqb_spec k k2) as [->|_]; [left; reflexivity|right; exact IH].
Qed.

Lemma minimal_value_agrees (ss ps : list (string * value)) (k : string) (w v : value) :
  assoc "properties" ss = Some (VObj ps) -> descriptions_are_strings ps ->
  get (VObj ps) k = Return w -> minimal_value (VStr k) w = Return v ->
  entry_agrees ss (k, v) = true.
Proof.
  intros Hp Hd Hw Hv. unfold entry_agrees, declared_type; cbn [fst snd]. rewrite Hp.
  rewrite get_obj in Hw. injection Hw as Hw.
  destruct (assoc k ps) as [w'|] eqn:Ek; [|reflexivity].
  subst w'. destruct w as [| | | | | |pe|]; try reflexivity.
  destruct (assoc "type" pe) as [t|] eqn:Et; [|reflexivity].
  destruct t as [| | | |t| | |]; try reflexivity.
  revert Hv. unfold minimal_value, type_agrees. rewrite get_obj, Et. cbn [js_bind is_str].
  repeat match goal with
         | |- context [String.eqb t ?s] => destruct (String.eqb_spec t s) as [->|?]
         end; cbn; try (intros H; injection H as <-; reflexivity).
  destruct (assoc "description" pe) as [d|] eqn:Ed; cbn.
  - destruct (truthy d) eqn:Td; intros H; injection H as <-; [|reflexivity].
    destruct (Hd _ _ _ Ek Et Ed Td) as [s ->]; reflexivity.
  - intros H; injection H as <-; reflexivity.
Qed.

Lemma fill_required_agrees (ss ps : list (string * value)) (names : list string)
    (acc res : list (string * value)) :
  assoc "properties" ss = Some (VObj ps) -> descriptions_are_strings ps ->
  Forall (fun kv => entry_agrees ss kv = true) acc ->
  fill_required (VObj ss) (map VStr names) acc = Return res ->
  Forall (fun kv => entry_agrees ss kv = true) res.
Proof.
  intros Hp Hd. revert acc. induction names as [|k rs IH]; intros acc Hacc H.
  - cbn in H. injection H as <-. exact Hacc.
  - cbn [map fill_required] in H. rewrite get_obj, Hp in H. cbn [js_bind to_string] in H.
    destruct (get (VObj ps) k) as [w|e] eqn:Hw; cbn [js_bind] in H; [|discriminate].
    destruct (truthy w); [|exact (IH acc Hacc H)].
    destruct (minimal_value (VStr k) w) as [v|e] eqn:Hv; cbn [js_bind] in H; [|discriminate].
    exact (IH _ (forall_assign _ _ _ _ Hacc (minimal_value_agrees ss ps k w v Hp Hd Hw Hv)) H).
Qed.

(** X1: [createMinimalValidObject] and [validateAgainstSchema] agree: for
    an object schema whose [properties] is an object giving every required
    key (a property name other than [__proto__]) a truthy property schema
    of its own, and whose string-typed property schemas have a string
    [description] when they have a truthy one, the synthesized object
    passes the validator. *)
Theorem createMinimal_validates (ss ps : list (string * value)) (names : list string) :
  assoc "properties" ss = Some (VObj ps) ->
  required_list (VObj ss) = Some (map VStr names) ->
  ~ In "__proto__" names ->
  (forall k, In k names -> exists w, assoc k ps = Some w /\ truthy w = true) ->
  descriptions_are_strings ps ->
  exists res, createMinimalValidObject (VObj ss) = Return (VObj res)
              /\ validateAgainstSchema (VObj res) (VObj ss) = true.
Proof.
  intros Hp Hreq _ Hkeys Hd.
  assert (Hgp : get (VObj ss) "properties" = Return (VObj ps))
    by (rewrite get_obj, Hp; reflexivity).
  destruct (fill_required_spec ss (VObj ps) names [] Hgp eq_refl)
    as [res [Hf [_ [Hpres _]]]].
  destruct (required_iterate _ _ Hreq) as [rq [Hr Hit]].
  exists res. split.
  - unfold createMinimalValidObject. cbn [truthy negb]. rewrite Hgp; cbn [js_bind truthy negb].
    rewrite Hr; cbn [js_bind]; rewrite Hit; cbn [js_bind]; rewrite Hf; reflexivity.
  - unfold validateAgainstSchema, validate_body.
    rewrite Hr; cbn [js_bind]; rewrite Hit; cbn [js_bind].
    rewrite check_required_names; cbn [js_bind].
    assert (Hall : forallb (fun k => in_object k res) names = true).
    { apply forallb_forall. intros k Hin. apply Hpres; [exact Hin|].
      destruct (Hkeys k Hin) as [w [Hw Tw]]. exists w.
      rewrite get_obj, Hw. split; [reflexivity|exact Tw]. }
    rewrite Hall. cbn [object_entries js_bind].
    rewrite check_types_obj by (intros xs; rewrite Hp; discriminate).
    apply forallb_forall. intros kv Hin.
    pose proof (fill_required_agrees ss ps names [] res Hp Hd (Forall_nil _) Hf) as HF.
    rewrite Forall_forall in HF. exact (HF kv Hin).
Qed.

Lemma fill_required_entries (ss : list (string * value)) (props : value) (names : list string)
    (acc res : list (string * value)) :
  get (VObj ss) "properties" = Return props ->
  fill_required (VObj ss) (map VStr names) acc = Return res ->
  forall k v, In (k, v) res ->
    In (k, v) acc
    \/ (In k names /\
        exists w, get props k = Return w /\ truthy w = true /\ minimal_value (VStr k) w = Return v).
Proof.
  intros Hp. revert acc. induction names as [|k0 rs IH]; intros acc H k v Hin.
  - cbn in H. injection H as <-. left; exact Hin.
  - cbn [map fill_required] in H. rewrite Hp in H. cbn [js_bind to_string] in H.
    destruct (get props k0) as [w|e] eqn:Hw; cbn [js_bind] in H; [|discriminate].
    destruct (truthy w) eqn:Tw.
    + destruct (minimal_value (VStr k0) w) as [v0|e] eqn:Hv; cbn [js_bind] in H; [|discriminate].
      destruct (IH _ H k v Hin) as [Hacc|[Hk Rest]].
      * unfold assign in Hacc. destruct (String.eqb_spec k0 "__proto__");
          [left; exact Hacc|].
        destruct (in_obj_set _ _ _ _ _ Hacc) as [Ha|[-> ->]]; [left; exact Ha|].
        right. split; [left; reflexivity|]. exists w. auto.
      * right. split; [right; exact Hk|exact Rest].
    + destruct (IH _ H k v Hin) as [Hacc|[Hk Rest]]; [left; exact Hacc|].
      right. split; [right; exact Hk|exact Rest].
Qed.

(** X2: take an object schema with truthy [properties] whose [required]
    entry is absent or a sequence of property names other than
    [__proto__].  The object synthesized by [createMinimalValidObject]
    holds only required keys whose property schema is truthy, and each key
    holds the minimal value of its property schema's type. *)
Theorem createMinimal_keys_required (ss : list (string * value)) (props : value)
    (names : list string) (res : list (string * value)) :
  get (VObj ss) "properties" = Return props -> truthy props = true ->
  required_list (VObj ss) = Some (map VStr names) ->
  ~ In "__proto__" names ->
  createMinimalValidObject (VObj ss) = Return (VObj res) ->
  forall k v, In (k, v) res ->
    In k names /\
    exists w, get props k = Return w /\ truthy w = true /\ minimal_value (VStr k) w = Return v.
Proof.
  intros Hp Tp Hreq _ H.
  destruct (required_iterate _ _ Hreq) as [rq [Hr Hit]].
  unfold createMinimalValidObject in H. cbn [truthy negb] in H.
  rewrite Hp in H; cbn [js_bind] in H. rewrite Tp in H; cbn [negb] in H.
  rewrite Hr in H; cbn [js_bind] in H. rewrite Hit in H; cbn [js_bind] in H.
  destruct (fill_required (VObj ss) (map VStr names) []) as [res'|e] eqn:Hf;
    cbn [js_bind] in H; [|discriminate].
  injection H as <-. intros k v Hin.
  destruct (fill_required_entries ss props names [] res' Hp Hf k v Hin) as [[]|Hx].
  exact Hx.
Qed.

(** ** Transforms *)

Lemma filter_fields_obj (ps : list (string * value)) (names : list string)
    (acc : list (string * value)) :
  exists out,
    filter_fields (VObj ps) (map VStr names) acc = Return out
    /\ (forall k v, In (k, v) out ->
          In (k, v) acc \/ (In k names /\ get (VObj ps) k = Return v))
    /\ (forall k v, In (k, v) acc -> get (VObj ps) k = Return v -> In (k, v) out)
    /\ (forall k v, In k names -> k <> "__proto__" -> assoc k ps = Some v -> In (k, v) out).
Proof.
  revert acc. induction names as [|k r IH]; intros acc.
  - exists acc. split; [reflexivity|]. split; [auto|]. split; [auto|]. intros k v [].
  - cbn [map filter_fields truthy js_in_op to_string js_bind js_in].
    set (v0 := match assoc k ps with
               | Some w => w
               | None => if mem k object_proto_keys then VFun k else VUndef
               end).
    assert (Hv0 : get (VObj ps) k = Return v0) by (rewrite get_obj; reflexivity).
    destruct (match assoc k ps with Some _ => true | None => mem k object_proto_keys end)
      eqn:Hpres.
    + rewrite Hv0; cbn [js_bind].
      destruct (IH (assign acc k v0)) as [out [Hout [H1 [H2 H3]]]].
      exists out. split; [exact Hout|]. split; [|split].
      * intros k' v Hin. destruct (H1 k' v Hin) as [Ha|[Hk Hg]].
        -- unfold assign in Ha. destruct (String.eqb_spec k "__proto__") as [Ep|Np];
             [left; exact Ha|].
           destruct (in_obj_set _ _ _ _ _ Ha) as [Ha'|[-> ->]]; [left; exact Ha'|].
           right. split; [left; reflexivity|exact Hv0].
        -- right. split; [right; exact Hk|exact Hg].
      * intros k' v Hin Hg. apply H2; [|exact Hg].
        unfold assign. destruct (String.eqb k "__proto__"); [exact Hin|].
        apply in_obj_set_keep; [exact Hin|]. intros ->. congruence.
      * intros k' v [<-|Hin] Hk Ha; [|apply H3; assumption].
        apply H2; [|rewrite get_obj, Ha; reflexivity].
        unfold assign.
        destruct (String.eqb_spec k "__proto__") as [Ep|_]; [contradiction|].
        assert (v0 = v) as -> by (unfold v0; rewrite Ha; reflexivity).
        apply in_obj_set_same.
    + destruct (IH acc) as [out [Hout [H1 [H2 H3]]]].
      exists out. split; [exact Hout|]. split; [|split].
      * intros k' v Hin. destruct (H1 k' v Hin) as [Ha|[Hk Hg]]; [left; exact Ha|].
        right. split; [right; exact Hk|exact Hg].
      * exact H2.
      * intros k' v [<-|Hin] Hk Ha; [|apply H3; assumption].
        rewrite Ha in Hpres. discriminate.
Qed.

(** X3: a filter transform with a sequence of field names other than
    [__proto__], on an object result, builds a new object: each of its
    entries is a listed field holding the value [result[field]] (which for
    an inherited member such as [toString] is that member); and every
    listed field that is an own key of the result is kept with its
    value. *)
Theorem filter_transform_object (t : value) (names : list string) (ps : list (string * value)) :
  get t "type" = Return (VStr "filter") -> get t "fields" = Return (VArr (map VStr names)) ->
  ~ In "__proto__" names ->
  exists out,
    apply_transforms [t] (VObj ps) = Return (VObj out)
    /\ (forall k v, In (k, v) out -> In k names /\ get (VObj ps) k = Return v)
    /\ (forall k v, In k names -> assoc k ps = Some v -> In (k, v) out).
Proof.
  intros Hty Hf Hnp. destruct (filter_fields_obj ps names []) as [out [Hout [H1 [_ H3]]]].
  exists out. split; [|split].
  - cbn [apply_transforms]. rewrite Hty; cbn [js_bind is_str].
    replace (String.eqb "filter" "filter") with true by reflexivity.
    rewrite Hf; cbn [js_bind truthy iterate]. rewrite Hout; reflexivity.
  - intros k v Hin. destruct (H1 k v Hin) as [[]|H]; exact H.
  - intros k v Hin Ha. apply H3; [exact Hin| |exact Ha].
    intros ->. contradiction.
Qed.

Lemma filter_fields_falsy (result : value) (fs : list value) (acc : list (string * value)) :
  truthy result = false -> filter_fields result fs acc = Return acc.
Proof.
  intros T. revert acc. induction fs as [|f r IH]; intros acc; cbn [filter_fields];
    [reflexivity|]. rewrite T. apply IH.
Qed.

(** A filter transform on a falsy result ([null], [false], [0], the empty
    string) yields the empty object, whatever the fields. *)
Theorem filter_transform_falsy (t result : value) (fs : list value) :
  get t "type" = Return (VStr "filter") -> get t "fields" = Return (VArr fs) ->
  truthy result = false ->
  apply_transforms [t] result = Return (VObj []).
Proof.
  intros Hty Hf T. cbn [apply_transforms]. rewrite Hty; cbn [js_bind is_str].
  replace (String.eqb "filter" "filter") with true by reflexivity.
  rewrite Hf; cbn [js_bind truthy iterate]. rewrite filter_fields_falsy by exact T.
  reflexivity.
Qed.

(** Transforms whose [type] is not ['filter'], and filters without a
    truthy [fields], are skipped: the result goes through unchanged and
    nothing is raised. *)
Theorem apply_transforms_skip (ts : list value) (result : value) :
  Forall (fun t => exists ty, get t "type" = Return ty
                   /\ (is_str ty "filter" = false
                       \/ exists fields, get t "fields" = Return fields
                                        /\ truthy fields = false)) ts ->
  apply_transforms ts result = Return result.
Proof.
  induction 1 as [|t ts [ty [Hty Hcase]] _ IH]; [reflexivity|].
  cbn [apply_transforms]. rewrite Hty; cbn [js_bind].
  destruct Hcase as [Hn|[fields [Hf Tf]]].
  - rewrite Hn. exact IH.
  - destruct (is_str ty "filter"); [|exact IH].
    rewrite Hf; cbn [js_bind]. rewrite Tf. exact IH.
Qed.

(** ** The two regular expressions *)

Local Open Scope list_scope.

Lemma last_index_some (c : ascii) (l : list ascii) (i : nat) :
  last_index c l = Some i -> exists a b, l = a ++ c :: b /\ length a = i /\ ~ In c b.
Proof.
  revert i. induction l as [|d r IH]; intros i H; cbn [last_index] in H; [discriminate|].
  destruct (last_index c r) as [j|] eqn:E.
  - injection H as <-. destruct (IH j eq_refl) as [a [b [-> [La Nb]]]].
    exists (d :: a), b. split; [reflexivity|]. split; [cbn; rewrite La; reflexivity|exact Nb].
  - destruct (Ascii.eqb_spec c d) as [->|_]; [|discriminate]. injection H as <-.
    exists [], r. split; [reflexivity|]. split; [reflexivity|].
    intros Hin. clear IH. induction r as [|x r' IHr]; [destruct Hin|].
    cbn [last_index] in E. destruct (last_index d r'); [discriminate|].
    destruct (Ascii.eqb_spec d x) as [_|Nx]; [discriminate|].
    destruct Hin as [->|Hin]; [apply Nx; reflexivity|exact (IHr E Hin)].
Qed.

Lemma last_index_none (c : ascii) (l : list ascii) :
  last_index c l = None -> ~ In c l.
Proof.
  induction l as [|d r IH]; cbn [last_index]; [intros _ []|].
  destruct (last_index c r); [discriminate|].
  destruct (Ascii.eqb_spec c d) as [_|Nd]; [discriminate|].
  intros _ [->|Hin]; [apply Nd; reflexivity|exact (IH eq_refl Hin)].
Qed.

Lemma brace_at_some (l m : list ascii) :
  brace_at l = Some m ->
  exists body rest, m = "{"%char :: body ++ ["}"%char] /\ l = m ++ rest
                    /\ ~ In "}"%char rest.
Proof.
  destruct l as [|c r]; cbn [brace_at]; [discriminate|].
  destruct (Ascii.eqb_spec c "{"%char) as [->|_]; [|discriminate].
  destruct (last_index "}"%char r) as [i|] eqn:E; [|discriminate].
  intros H; injection H as <-.
  destruct (last_index_some _ _ _ E) as [a [b [-> [<- Nb]]]].
  exists a, b.
  assert (Hf : firstn (S (length a)) (a ++ "}"%char :: b) = a ++ ["}"%char]).
  { clear. induction a as [|x a IH]; [reflexivity|].
    change (x :: firstn (S (length a)) (a ++ "}"%char :: b) = x :: a ++ ["}"%char]).
    rewrite IH. reflexivity. }
  cbn [firstn] in Hf. rewrite Hf. split; [reflexivity|]. split; [|exact Nb].
  cbn. rewrite <- app_assoc. reflexivity.
Qed.

Lemma brace_at_none (c : ascii) (r : list ascii) :
  brace_at (c :: r) = None -> c = "{"%char -> ~ In "}"%char r.
Proof.
  intros H ->. cbn [brace_at] in H. rewrite Ascii.eqb_refl in H.
  destruct (last_index "}"%char r) eqn:E; [discriminate|]. apply last_index_none, E.
Qed.

Lemma brace_match_l_some (l : list ascii) (m : re_match) :
  brace_match_l l = Some m ->
  exists pre body post,
    l = pre ++ ("{"%char :: body ++ ["}"%char]) ++ post
    /\ m = {| m0 := string_of_list_ascii ("{"%char :: body ++ ["}"%char]); m1 := None |}
    /\ ~ In "{"%char pre /\ ~ In "}"%char post.
Proof.
  induction l as [|c r IH]; intros H.
  - discriminate.
  - cbn [brace_match_l] in H. destruct (brace_at (c :: r)) as [mm|] eqn:E.
    + injection H as <-. destruct (brace_at_some _ _ E) as [body [rest [-> [Hl Nr]]]].
      exists [], body, rest. split; [exact Hl|]. split; [reflexivity|]. split; [intros []|exact Nr].
    + destruct (IH H) as [pre [body [post [Hl [Hm [Np Nq]]]]]].
      exists (c :: pre), body, post. split; [rewrite Hl; reflexivity|]. split; [exact Hm|].
      split; [|exact Nq].
      intros [Ec|Hin]; [|exact (Np Hin)].
      apply (brace_at_none c r E Ec). rewrite Hl.
      apply in_or_app; right. right. apply in_or_app; left. apply in_or_app; right. left; reflexivity.
Qed.

Lemma brace_match_l_none (l : list ascii) :
  brace_match_l l = None ->
  ~ exists a b c, l = a ++ "{"%char :: b ++ "}"%char :: c.
Proof.
  induction l as [|x r IH]; intros H [a [b [c Hl]]].
  - destruct a; discriminate.
  - cbn [brace_match_l] in H. destruct (brace_at (x :: r)) eqn:E; [discriminate|].
    destruct a as [|y a].
    + injection Hl as -> Hr. apply (brace_at_none _ _ E eq_refl). rewrite Hr.
      apply in_or_app; right; left; reflexivity.
    + injection Hl as -> Hr. apply (IH H). exists a, b, c. exact Hr.
Qed.

(** The pattern [/\{[\s\S]*\}/] matches exactly when the text has an
    opening brace followed, somewhere later, by a closing one; its match
    is then the span from the first opening brace to the last closing
    brace: no [{] before it, no [}] after it, and it has no group. *)
Theorem brace_match_span (s : string) :
  (brace_match s = None <->
   ~ exists a b c, list_ascii_of_string s = a ++ "{"%char :: b ++ "}"%char :: c)
  /\ forall m, brace_match s = Some m ->
       m1 m = None
       /\ exists pre body post,
            list_ascii_of_string (m0 m) = "{"%char :: body ++ ["}"%char]
            /\ list_ascii_of_string s = pre ++ list_ascii_of_string (m0 m) ++ post
            /\ ~ In "{"%char pre /\ ~ In "}"%char post.
Proof.
  unfold brace_match. split.
  - split; [apply brace_match_l_none|].
    intros Hn. destruct (brace_match_l (list_ascii_of_string s)) as [m|] eqn:E; [|reflexivity].
    exfalso; apply Hn. destruct (brace_match_l_some _ _ E) as [pre [body [post [Hl _]]]].
    exists pre, body, post. rewrite Hl. cbn. rewrite <- app_assoc. reflexivity.
  - intros m E. destruct (brace_match_l_some _ _ E) as [pre [body [post [Hl [-> [Np Nq]]]]]].
    split; [reflexivity|]. exists pre, body, post. cbn [m0].
    rewrite list_ascii_of_string_of_list_ascii. split; [reflexivity|].
    split; [exact Hl|]. split; assumption.
Qed.

Lemma starts_with_app (p x : list ascii) : starts_with p (p ++ x) = true.
Proof.
  induction p as [|c p IH]; [reflexivity|]. cbn. rewrite Ascii.eqb_refl. exact IH.
Qed.

Lemma starts_with_true (p l : list ascii) :
  starts_with p l = true -> exists rest, l = p ++ rest.
Proof.
  revert l. induction p as [|c p IH]; intros l H; [exists l; reflexivity|].
  destruct l as [|d l]; [discriminate|]. cbn in H.
  apply andb_prop in H. destruct H as [Hc H].
  apply Ascii.eqb_eq in Hc; subst d. destruct (IH l H) as [rest ->]. exists rest; reflexivity.
Qed.

Lemma lazy_close_some (l g cl : list ascii) :
  lazy_close l = Some (g, cl) ->
  exists rest, l = g ++ cl ++ rest /\ (cl = nl_fence \/ cl = fence)
               /\ forall a b, g <> a ++ fence ++ b.
Proof.
  revert g cl. induction l as [|c r IH]; intros g cl H.
  - discriminate.
  - cbn [lazy_close] in H.
    destruct (starts_with nl_fence (c :: r)) eqn:E1.
    + injection H as <- <-. destruct (starts_with_true _ _ E1) as [rest Hr].
      exists rest. split; [exact Hr|]. split; [left; reflexivity|].
      intros a b Hab. destruct a; discriminate.
    + destruct (starts_with fence (c :: r)) eqn:E2.
      * injection H as <- <-. destruct (starts_with_true _ _ E2) as [rest Hr].
        exists rest. split; [exact Hr|]. split; [right; reflexivity|].
        intros a b Hab. destruct a; discriminate.
      * destruct (lazy_close r) as [[g' cl']|] eqn:E3; [|discriminate].
        injection H as <- <-. destruct (IH g' cl' eq_refl) as [rest [Hr [Hcl Hg]]].
        exists rest. split; [rewrite Hr; reflexivity|]. split; [exact Hcl|].
        intros a b Hab. destruct a as [|x a].
        -- rewrite Hr in E2. cbn [app] in Hab.
           change (c :: g' ++ cl' ++ rest) with ((c :: g') ++ cl' ++ rest) in E2.
           rewrite Hab, <- app_assoc, starts_with_app in E2. discriminate.
        -- injection Hab as _ Hab. exact (Hg a b Hab).
Qed.

Lemma fence_body_some (l : list ascii) (pre g cl : list ascii) :
  fence_body l = Some (pre, g, cl) ->
  (pre = list_ascii_of_string "json" ++ [ascii_of_nat 10]
   \/ pre = list_ascii_of_string "json" \/ pre = [ascii_of_nat 10] \/ pre = [])
  /\ exists rest, l = pre ++ g ++ cl ++ rest /\ (cl = nl_fence \/ cl = fence)
                  /\ forall a b, g <> a ++ fence ++ b.
Proof.
  assert (Htry : forall p r,
    (if starts_with p l then
       match lazy_close (skipn (length p) l) with
       | Some (g, cl) => Some (p, g, cl)
       | None => None
       end
     else None) = Some r ->
    exists g cl rest, r = (p, g, cl) /\ l = p ++ g ++ cl ++ rest
                      /\ (cl = nl_fence \/ cl = fence) /\ forall a b, g <> a ++ fence ++ b).
  { intros p r H. destruct (starts_with p l) eqn:E; [|discriminate].
    destruct (starts_with_true _ _ E) as [x ->].
    replace (skipn (length p) (p ++ x)) with x in H
      by (clear; induction p as [|c p IH]; [reflexivity|exact IH]).
    destruct (lazy_close x) as [[g0 cl0]|] eqn:E2; [|discriminate].
    injection H as <-. destruct (lazy_close_some _ _ _ E2) as [rest [-> [Hc Hg]]].
    exists g0, cl0, rest. auto. }
  unfold fence_body. intros H.
  repeat match type of H with
         | match ?X with Some r => Some r | None => _ end = Some _ =>
             let E := fresh "E" in
             destruct X as [r|] eqn:E;
             [injection H as ->;
              destruct (Htry _ _ E) as [g0 [cl0 [rest [Hr [Hl [Hc Hg]]]]]];
              injection Hr as -> -> ->
             |]
         end.
  all: try (split; [auto 6|exists rest; auto]).
  destruct (Htry [] _ H) as [g0 [cl0 [rest [Hr [Hl [Hc Hg]]]]]].
  injection Hr as -> -> ->. split; [auto 6|exists rest; auto].
Qed.

Lemma fence_match_l_some (l : list ascii) (m : re_match) :
  fence_match_l l = Some m ->
  exists pre opt g cl post,
    l = pre ++ fence ++ opt ++ g ++ cl ++ post
    /\ m = {| m0 := string_of_list_ascii (fence ++ opt ++ g ++ cl);
              m1 := Some (string_of_list_ascii g) |}
    /\ (opt = list_ascii_of_string "json" ++ [ascii_of_nat 10]
        \/ opt = list_ascii_of_string "json" \/ opt = [ascii_of_nat 10] \/ opt = [])
    /\ (cl = nl_fence \/ cl = fence)
    /\ forall a b, g <> a ++ fence ++ b.
Proof.
  induction l as [|c r IH]; intros H.
  - discriminate.
  - cbn [fence_match_l] in H.
    destruct (starts_with fence (c :: r)) eqn:E.
    + destruct (fence_body (skipn 3 (c :: r))) as [[[opt g] cl]|] eqn:Eb.
      * injection H as <-. destruct (starts_with_true _ _ E) as [x Hx].
        rewrite Hx in Eb. change (skipn 3 (fence ++ x)) with x in Eb.
        destruct (fence_body_some _ _ _ _ Eb) as [Hopt [rest [Hxr [Hc Hg]]]].
        exists [], opt, g, cl, rest. rewrite Hx, Hxr. split; [reflexivity|]. auto.
      * destruct (IH H) as [pre [opt [g [cl [post [Hl Rest]]]]]].
        exists (c :: pre), opt, g, cl, post. rewrite Hl. split; [reflexivity|exact Rest].
    + destruct (IH H) as [pre [opt [g [cl [post [Hl Rest]]]]]].
      exists (c :: pre), opt, g, cl, post. rewrite Hl. split; [reflexivity|exact Rest].
Qed.

(** A match of [/```(?:json)?\n?([\s\S]*?)\n?```/] is a piece of the
    text: three backticks, an optional [json] and newline, the group, an
    optional newline and three backticks; and the lazy group never holds
    three consecutive backticks, so it never spans two fenced blocks. *)
Theorem fence_match_block (s : string) (m : re_match) :
  fence_match s = Some m ->
  exists pre opt g cl post,
    list_ascii_of_string s = pre ++ list_ascii_of_string (m0 m) ++ post
    /\ list_ascii_of_string (m0 m) = fence ++ opt ++ g ++ cl
    /\ m1 m = Some (string_of_list_ascii g)
    /\ (opt = list_ascii_of_string "json" ++ [ascii_of_nat 10]
        \/ opt = list_ascii_of_string "json" \/ opt = [ascii_of_nat 10] \/ opt = [])
    /\ (cl = nl_fence \/ cl = fence)
    /\ forall a b, g <> a ++ fence ++ b.
Proof.
  unfold fence_match. intros H.
  destruct (fence_match_l_some _ _ H) as [pre [opt [g [cl [post [Hl [-> Rest]]]]]]].
  exists pre, opt, g, cl, post. cbn [m0 m1].
  rewrite list_ascii_of_string_of_list_ascii. split; [|split; [reflexivity|split; [reflexivity|exact Rest]]].
  rewrite Hl. rewrite <- !app_assoc. reflexivity.
Qed.

(** ** The route [POST /api/chat] *)

(** A chat request whose [messages] is missing, falsy or not an array is
    answered with status 400, and nothing is sent to the completion
    service. *)
Theorem simple_chat_bad_messages (body messages : value) (log : list value) :
  get body "messages" = Return messages ->
  truthy messages = false \/ is_array messages = false ->
  simple_chat ollama_chat default_model body log
    = (log, Return (JsonReply (reply 400 [("error", VStr "Se requieren mensajes válidos")]))).
Proof.
  intros Hms Hcase.
  destruct (get_return_defined _ _ _ Hms) as [H1 H2].
  destruct (get_defined body "model" H1 H2) as [model Hm].
  destruct (get_defined body "stream" H1 H2) as [stream Hs].
  destruct (get_defined body "options" H1 H2) as [options Ho].
  cbv [simple_chat try_catch bind lift ret]. rewrite Hm, Hms, Hs, Ho.
  destruct Hcase as [H|H]; rewrite H; [reflexivity|].
  rewrite orb_true_r. reflexivity.
Qed.

(** A chat request whose [messages] is an array, the empty array
    included, is forwarded as one request: [model] is the request's, or
    [DEFAULT_MODEL] when it is undefined; [stream] is [true] exactly when
    the request's [stream] is truthy; [options] is sent only when truthy.
    The client gets the upstream answer's own fields with status 200 (the
    stream itself, when streaming), or status 500 when the request fails. *)
Theorem simple_chat_forwards (body model stream options : value) (msgs : list value)
    (log : list value) :
  get body "model" = Return model -> get body "messages" = Return (VArr msgs) ->
  get body "stream" = Return stream -> get body "options" = Return options ->
  let req := chat_request (default_to (VStr default_model) model) (VArr msgs) options
                          (truthy stream) in
  simple_chat ollama_chat default_model body log =
    (app log [req],
     Return (match ollama_chat req with
             | Some data =>
                 if truthy stream then Streamed data
                 else JsonReply (reply 200 (without_clock (spread data)))
             | None =>
                 JsonReply (reply 500 [("error", VStr "Error del servidor");
                                       ("message", VStr "AxiosError")])
             end)).
Proof.
  intros Hm Hms Hs Ho req.
  cbv [simple_chat try_catch bind lift ret]. rewrite Hm, Hms, Hs, Ho.
  cbn [truthy is_array negb orb].
  assert (Ts : truthy (default_to (VBool false) stream) = truthy stream)
    by (destruct stream; reflexivity).
  rewrite Ts. unfold req. destruct (truthy stream); unfold post_chat;
    destruct (ollama_chat _); reflexivity.
Qed.

(** ** The route [POST /api/structured-chat] on its direct paths *)





(** ** Requests sent by the structured-chat route *)

Lemma am_ret {A} (t : nat) (a : A) : appends_at_most t (ret a).
Proof. intros log; exists []; split; [cbn; symmetry; apply app_nil_r|cbn; lia]. Qed.

Lemma am_lift {A} (t : nat) (m : js A) : appends_at_most t (lift m).
Proof. intros log; exists []; split; [cbn; symmetry; apply app_nil_r|cbn; lia]. Qed.

Lemma am_raise {A} (t : nat) (e : exn) : appends_at_most t (@raise A e).
Proof. intros log; exists []; split; [cbn; symmetry; apply app_nil_r|cbn; lia]. Qed.

Lemma am_post_chat (t : nat) (body : value) :
  1 <= t -> appends_at_most t (post_chat ollama_chat body).
Proof. intros Ht log; exists [body]; split; [reflexivity|cbn; lia]. Qed.

Lemma am_bind_le {A B} (n k t : nat) (m : M A) (f : A -> M B) :
  appends_at_most n m -> (forall a, appends_at_most k (f a)) -> n + k <= t ->
  appends_at_most t (bind m f).
Proof.
  intros Hm Hf Ht log. destruct (Hm log) as [e1 [H1 L1]]. unfold bind.
  destruct (m log) as [log1 [a|e]] eqn:E; cbn [fst] in H1; subst log1.
  - destruct (Hf a (app log e1)) as [e2 [H2 L2]].
    exists (app e1 e2). split; [rewrite H2, app_assoc; reflexivity|].
    rewrite length_app; lia.
  - exists e1. split; [reflexivity|lia].
Qed.

Lemma am_try_catch_le {A} (n k t : nat) (m : M A) (h : exn -> M A) :
  appends_at_most n m -> (forall e, appends_at_most k (h e)) -> n + k <= t ->
  appends_at_most t (try_catch m h).
Proof.
  intros Hm Hh Ht log. destruct (Hm log) as [e1 [H1 L1]]. unfold try_catch.
  destruct (m log) as [log1 [a|e]] eqn:E; cbn [fst] in H1; subst log1.
  - exists e1. split; [reflexivity|lia].
  - destruct (Hh e (app log e1)) as [e2 [H2 L2]].
    exists (app e1 e2). split; [rewrite H2, app_assoc; reflexivity|].
    rewrite length_app; lia.
Qed.

Lemma am_generate (t : nat) (text schema : value) :
  1 <= t ->
  appends_at_most t (generateJsonFromText json_parse ollama_chat transform_model text schema).
Proof.
  intros Ht. unfold generateJsonFromText.
  apply (am_try_catch_le 1 0); [|intros; apply am_lift|lia].
  apply (am_bind_le 0 1); [apply am_lift|intros|lia].
  apply (am_bind_le 1 0); [apply am_post_chat; lia|intros|lia].
  apply (am_bind_le 0 0); [apply am_lift|intros|lia].
  apply (am_bind_le 0 0); [apply am_lift|intros|lia].
  apply am_lift.
Qed.

Lemma am_extract (text schema : value) :
  appends_at_most 1 (extractJsonFromText json_parse ollama_chat transform_model text schema).
Proof.
  assert (Hlast : appends_at_most 1
            (if truthy schema then generateJsonFromText json_parse ollama_chat transform_model text schema
             else raise extraction_error)).
  { destruct (truthy schema); [apply am_generate; lia|apply am_raise]. }
  unfold extractJsonFromText.
  destruct (match to_string text with Return s => json_parse s | Throw _ => None end);
    [apply am_ret|].
  destruct text; try apply am_raise.
  repeat match goal with
         | |- appends_at_most _ (match ?x with _ => _ end) => destruct x
         end; first [apply am_ret | exact Hlast].
Qed.

Lemma am_schema_path (model service content schema : value) :
  appends_at_most 2
    (schema_path json_parse ollama_chat transform_model model service content schema).
Proof.
  unfold schema_path.
  apply (am_try_catch_le 2 0); [|intros e; destruct (truthy schema);
    [apply (am_bind_le 0 0); [apply am_lift|intros; apply am_ret|lia]|apply am_ret]|lia].
  apply (am_bind_le 1 1); [apply am_extract|intros parsed|lia].
  destruct (truthy schema && negb (validateAgainstSchema parsed schema)).
  - apply (am_bind_le 1 0); [apply am_generate; lia|intros; apply am_ret|lia].
  - apply am_ret.
Qed.

(** A structured-chat request never removes or rewrites the requests
    already sent, and sends at most three requests to the completion
    service: the chat request, a regeneration when the answer does not
    parse, and another one when the result fails validation. *)
Theorem structured_chat_at_most_three (body : value) :
  appends_at_most 3 (structured_chat json_parse ollama_chat transform_model body).
Proof.
  unfold structured_chat. cbv zeta.
  apply (am_try_catch_le 3 0); [|intros; apply am_ret|lia].
  do 5 (apply (am_bind_le 0 3); [apply am_lift|intros|lia]).
  match goal with |- context [if negb (truthy ?m) then _ else _] => destruct (negb (truthy m)) end;
    [apply am_ret|].
  match goal with
  | |- appends_at_most _ (match ?x with _ => _ end) =>
      destruct x as [| | | | |[|x xs]| |]; try apply am_ret
  end.
  apply (am_bind_le 0 3); [apply am_lift|intros requested|lia].
  apply (am_bind_le 0 3); [destruct requested; [apply am_lift|apply am_ret]|intros schema|lia].
  apply (am_bind_le 0 3); [destruct (requested && truthy schema); [apply am_lift|apply am_ret]
                          |intros mm|lia].
  apply (am_bind_le 0 3); [apply am_lift|intros model_text|lia].
  apply (am_bind_le 0 3); [apply am_lift|intros options|lia].
  apply (am_bind_le 1 2); [apply am_post_chat; lia|intros data|lia].
  apply (am_bind_le 0 2); [apply am_lift|intros bad|lia].
  destruct bad; [apply am_ret|].
  apply (am_bind_le 0 2); [apply am_lift|intros message|lia].
  apply (am_bind_le 0 2); [apply am_lift|intros content|lia].
  apply (am_bind_le 2 0); [destruct requested; [apply am_schema_path|apply am_ret]|intros step|lia].
  destruct step; [apply am_ret|].
  apply (am_bind_le 0 0); [|intros; apply am_ret|lia].
  match goal with
  | |- appends_at_most _ (match ?x with _ => _ end) => destruct x
  end; first [apply am_lift | apply am_ret].
Qed.

(** ** [validateAgainstSchema] without constraints *)

Lemma check_types_unconstrained (ss : list (string * value)) (es : list (string * value)) :
  assoc "properties" ss = None -> check_types (VObj ss) es = Return true.
Proof.
  intros Hp. induction es as [|[k v] r IH]; [reflexivity|].
  cbn [check_types]. unfold prop_schema. rewrite get_obj, Hp. cbn. exact IH.
Qed.

(** A schema with neither [required] nor [properties] accepts every
    document other than [null] and [undefined]: arrays, strings, numbers
    and booleans included. *)
Theorem validate_unconstrained (ss : list (string * value)) (data : value) :
  assoc "required" ss = None -> assoc "properties" ss = None ->
  data <> VUndef -> data <> VNull ->
  validateAgainstSchema data (VObj ss) = true.
Proof.
  intros Hr Hp H1 H2. unfold validateAgainstSchema, validate_body.
  rewrite get_obj, Hr. cbn [js_bind mem existsb object_proto_keys String.eqb truthy iterate check_required].
  destruct data; try congruence; cbn [object_entries js_bind];
    rewrite check_types_unconstrained by exact Hp; reflexivity.
Qed.

End Extras.

(** ** Instances of the further properties *)

Lemma createMinimal_validates_witness :
  exists res, createMinimalValidObject (VObj person_props) = Return (VObj res)
              /\ validateAgainstSchema (VObj res) (VObj person_props) = true.
Proof.
  apply (createMinimal_validates person_props
           [("age", VObj [("type", VStr "number")]);
            ("name", VObj [("type", VStr "string"); ("description", VStr "a name")])]
           ["age"; "name"]).
  - reflexivity.
  - reflexivity.
  - intros [H|[H|[]]]; discriminate H.
  - intros k [<-|[<-|[]]]; eexists; split; reflexivity.
  - intros k pe d Hk Ht Hd Td. cbn in Hk.
    destruct (String.eqb k "age"); [injection Hk as <-; discriminate|].
    destruct (String.eqb k "name"); [injection Hk as <-|discriminate].
    cbn in Hd. injection Hd as <-. eexists; reflexivity.
Defined.

Lemma createMinimal_keys_required_witness :
  In "name" ["age"; "name"] /\
  exists w, get (VObj [("age", VObj [("type", VStr "number")]);
                      ("name", VObj [("type", VStr "string");
                                     ("description", VStr "a name")])]) "name" = Return w
            /\ truthy w = true /\ minimal_value (VStr "name") w = Return (VStr "a name").
Proof.
  refine (createMinimal_keys_required person_props _ ["age"; "name"]
            [("age", VNum 0); ("name", VStr "a name")] _ _ _ _ _ "name" (VStr "a name") _).
  all: first [reflexivity | vm_compute; reflexivity | right; left; reflexivity
             | intros [H|[H|[]]]; discriminate H].
Defined.

Lemma filter_transform_object_witness :
  exists out,
    apply_transforms [filter_on [VStr "a"; VStr "toString"]] (VObj [("a", VNum 1); ("b", VNum 2)])
      = Return (VObj out)
    /\ (forall k v, In (k, v) out ->
          In k ["a"; "toString"] /\ get (VObj [("a", VNum 1); ("b", VNum 2)]) k = Return v)
    /\ (forall k v, In k ["a"; "toString"] ->
          assoc k [("a", VNum 1); ("b", VNum 2)] = Some v -> In (k, v) out).
Proof.
  apply (filter_transform_object _ ["a"; "toString"]);
    [reflexivity|reflexivity|intros [H|[H|[]]]; discriminate H].
Defined.

Lemma filter_transform_falsy_witness :
  apply_transforms [filter_on [VStr "a"]] VNull = Return (VObj []).
Proof. apply (filter_transform_falsy (filter_on [VStr "a"]) VNull [VStr "a"]); reflexivity. Defined.

Lemma apply_transforms_skip_witness :
  apply_transforms [VObj [("type", VStr "map")]; VObj [("type", VStr "filter")]] (VStr "x")
    = Return (VStr "x").
Proof.
  apply apply_transforms_skip. constructor; [|constructor; [|constructor]].
  - exists (VStr "map"). split; [reflexivity|left; reflexivity].
  - exists (VStr "filter"). split; [reflexivity|right].
    exists VUndef. split; reflexivity.
Defined.

Lemma fence_match_block_witness :
  exists pre opt g cl post,
    list_ascii_of_string ("```json" ++ nl ++ "{}" ++ nl ++ "```")
      = (pre ++ list_ascii_of_string ("```json" ++ nl ++ "{}" ++ nl ++ "```") ++ post)%list
    /\ list_ascii_of_string ("```json" ++ nl ++ "{}" ++ nl ++ "```")
      = (fence ++ opt ++ g ++ cl)%list
    /\ Some "{}" = Some (string_of_list_ascii g)
    /\ (opt = (list_ascii_of_string "json" ++ [ascii_of_nat 10])%list
        \/ opt = list_ascii_of_string "json" \/ opt = [ascii_of_nat 10] \/ opt = [])
    /\ (cl = nl_fence \/ cl = fence)
    /\ forall a b, g <> (a ++ fence ++ b)%list.
Proof.
  apply (fence_match_block ("```json" ++ nl ++ "{}" ++ nl ++ "```")
           {| m0 := "```json" ++ nl ++ "{}" ++ nl ++ "```"; m1 := Some "{}" |}).
  vm_compute. reflexivity.
Defined.

Lemma simple_chat_bad_messages_witness :
  simple_chat no_service "gemma:2b" (VObj [("messages", VStr "hi")]) []
    = ([], Return (JsonReply (reply 400 [("error", VStr "Se requieren mensajes válidos")]))).
Proof.
  apply (simple_chat_bad_messages no_service "gemma:2b" _ (VStr "hi")).
  - reflexivity.
  - right; reflexivity.
Defined.

Lemma simple_chat_forwards_witness :
  let req := chat_request (default_to (VStr "gemma:2b") VUndef) (VArr []) VUndef
                          (truthy VUndef) in
  simple_chat (answer_service "ok") "gemma:2b" (VObj [("messages", VArr [])]) [] =
    (app [] [req],
     Return (match answer_service "ok" req with
             | Some data =>
                 if truthy VUndef then Streamed data
                 else JsonReply (reply 200 (without_clock (spread data)))
             | None =>
                 JsonReply (reply 500 [("error", VStr "Error del servidor");
                                       ("message", VStr "AxiosError")])
             end)).
Proof. apply (simple_chat_forwards (answer_service "ok") "gemma:2b"); reflexivity. Defined.



Lemma validate_unconstrained_witness :
  validateAgainstSchema (VArr [VNum 1]) (VObj [("title", VStr "anything")]) = true.
Proof.
  apply validate_unconstrained; [reflexivity|reflexivity|discriminate|discriminate].
Defined.
